(** * The MPG Ranch NFC detector of Vesper: streaming core

    A shallow embedding of [vesper/mpg_ranch/nfc_detector_0_0/detector.py]
    (class [_Detector] and the two module-level windowing functions), with
    the properties of its chunked processing loop, of its clip validation
    and of its windowing arithmetic.

    Conventions.
    - Python [int]s are unbounded: they are [Z].
    - Python [float]s (durations in seconds, sample rates, thresholds,
      scores) are idealised as exact rationals [Q]. Nothing below depends
      on a rounding error.
    - A sample array is a [list] of samples; the sample type is a parameter.
    - A method returns a pair: the calls made on the listener and on the
      logger, in order, and how the method ended (it returned, it raised, or
      its [while] loop never ended).
    - A call into code outside the detector module either returns or
      raises, and what it raises goes through the detector unchanged. *)

From Stdlib Require Import ZArith QArith Qround Qfield List String Bool Lia
  Permutation Sorted.
Import ListNotations.

Local Open Scope Z_scope.

(** ** Exceptions, observable calls, outcomes *)

Inductive exn : Type :=
| ValueError (msg : string)
| TypeError (msg : string)
| OSError (msg : string)
| InsufficientDataError.

(** What the detector does to the outside: the two listener hooks, and the
    warnings it logs. *)
Inductive event : Type :=
| ProcessClip (start_index length : Z) (threshold : Q)
| CompleteProcessing
| LogWarning (msg : string).

Inductive outcome (A : Type) : Type :=
| Returns (a : A)
| Raises (e : exn)
| Diverges.

Arguments Returns {A} a.
Arguments Raises {A} e.
Arguments Diverges {A}.

(** A computation: the events it produced before it ended, and its end. *)
Definition M (A : Type) : Type := (list event * outcome A)%type.

Definition ret {A} (a : A) : M A := ([], Returns a).
Definition raise {A} (e : exn) : M A := ([], Raises e).
Definition emit (e : event) : M unit := ([e], Returns tt).

(** The result of a call into code outside the detector module. *)
Definition call {A} (r : exn + A) : M A :=
  match r with
  | inl e => raise e
  | inr a => ret a
  end.

Definition bind {A B} (m : M A) (f : A -> M B) : M B :=
  match snd m with
  | Returns a => (fst m ++ fst (f a), snd (f a))
  | Raises e => (fst m, Raises e)
  | Diverges => (fst m, Diverges)
  end.

Declare Scope det_scope.
Delimit Scope det_scope with det.
Notation "x <- m ;; k" := (bind m (fun x => k))
  (at level 100, m at next level, right associativity) : det_scope.
Notation "m ;;; k" := (bind m (fun _ => k))
  (at level 100, right associativity) : det_scope.

(** The clips handed to [listener.process_clip]. *)
Definition clip : Type := (Z * Z * Q)%type.

Fixpoint clips_of (t : list event) : list clip :=
  match t with
  | [] => []
  | ProcessClip s l th :: t' => (s, l, th) :: clips_of t'
  | _ :: t' => clips_of t'
  end.

Definition emitted_clips {A} (m : M A) : list clip := clips_of (fst m).


(** ** Windowing ([_get_num_analysis_records], [_get_analysis_records]) *)

Definition _get_num_analysis_records (num_samples record_size hop_size : Z)
  : M Z :=
  if record_size <=? 0 then
    raise (ValueError "Record size must be positive.")
  else if hop_size <=? 0 then
    raise (ValueError "Hop size must be positive.")
  else if hop_size >? record_size then
    raise (ValueError "Hop size must not exceed record size.")
  else if num_samples <? record_size then
    ret 0
  else
    let overlap := record_size - hop_size in
    ret ((num_samples - overlap) / hop_size).

Section Windowing.
Context {sample : Type}.

(** Row [k] of the strided view: [record_size] samples from offset
    [k * hop_size]. *)
Definition record_at (samples : list sample) (record_size hop_size : Z)
           (k : nat) : list sample :=
  firstn (Z.to_nat record_size)
         (skipn (Z.to_nat (Z.of_nat k * hop_size)) samples).

Definition _get_analysis_records (samples : list sample)
           (record_size hop_size : Z) : M (list (list sample)) :=
  (let num_samples := Z.of_nat (List.length samples) in
   num_vectors <- _get_num_analysis_records num_samples record_size hop_size;;
   ret (map (record_at samples record_size hop_size)
            (seq 0 (Z.to_nat num_vectors))))%det.
End Windowing.

(** ** Collaborators

    The detector delegates to code that is not part of the detector module:
    the resampler ([resampy.resample]), the classifier that scores a batch
    of waveforms ([classifier_utils.score_dataset_examples] applied to the
    TensorFlow estimator and to the dataset built from [self._waveforms]),
    the classifier settings read from a YAML file, the TensorFlow estimator
    created from a saved model, and three functions of
    [vesper.util.signal_utils]. They are taken as parameters: every theorem
    below holds for all of them. The resampler, the scorer and the two
    loaders can raise; the estimator that [_create_estimator] returns is the
    one [score_dataset_examples] scores with, and is not kept apart. *)

Record ClassifierSettings : Type := {
  waveform_sample_rate : Q;
  waveform_duration : Q
}.

Class Collaborators (sample : Type) : Type := {
  resample : list sample -> Q -> Q -> exn + list sample;
  score_dataset_examples : list (list sample) -> exn + list Q;
  find_peaks : list Q -> Q -> option Q -> list Z;
  seconds_to_frames : Q -> Q -> Z;
  get_duration : Z -> Q -> Q;
  _load_classifier_settings : string -> exn + ClassifierSettings;
  _create_estimator : string -> exn + unit
}.

(** ** The sample buffer *)

Module SampleBuffer.
Section Buffer.
Context {sample : Type}.

(** Modelled from the spec: [vesper.util.sample_buffer.SampleBuffer] is
    not among the sources. Section 4.1: [write] appends to the tail in
    sample order; [read n] returns and removes the first [n] samples and
    fails with [InsufficientDataError] if fewer than [n] are buffered;
    reading without a count drains the buffer; [len] is the number of
    buffered samples. *)
Definition t : Type := list sample.

Definition empty : t := [].

Definition len (b : t) : Z := Z.of_nat (List.length b).

Definition write (b : t) (samples : list sample) : t := b ++ samples.

Definition read (b : t) (n : Z) : M (list sample * t) :=
  if len b <? n then raise InsufficientDataError
  else ret (firstn (Z.to_nat n) b, skipn (Z.to_nat n) b).

Definition read_all (b : t) : list sample * t := (b, empty).
End Buffer.
End SampleBuffer.

(** ** The detector *)

Record Settings : Type := {
  clip_type : string;
  input_chunk_size : Q;
  hop_size : Q;
  threshold : Q;
  min_separation : option Q;
  initial_clip_padding : Q;
  clip_duration : Q
}.

Section Detector.
Context {sample : Type} `{C : Collaborators sample}.

(** The attributes of a [_Detector] that its methods read or write.
    [_input_buffer] is [None] until the first [detect]; [_waveforms] does
    not exist until the first chunk. [self._settings.min_separation] is
    the value [__init__] stores in [_min_separation], and neither is
    assigned again: the record keeps it once. *)
Record Detector : Type := {
  _input_sample_rate : Q;
  _input_buffer : option (list sample);
  _input_chunk_size : Z;
  _thresholds : list Q;
  _min_separation : option Q;
  _clip_start_offset : Z;
  _clip_length : Z;
  _input_chunk_start_index : Z;
  _classifier_sample_rate : Q;
  _classifier_waveform_length : Z;
  _hop_size : Z;
  _waveforms : option (list (list sample))
}.

Definition set_input_buffer (d : Detector) (b : option (list sample))
  : Detector :=
  {| _input_sample_rate := _input_sample_rate d;
     _input_buffer := b;
     _input_chunk_size := _input_chunk_size d;
     _thresholds := _thresholds d;
     _min_separation := _min_separation d;
     _clip_start_offset := _clip_start_offset d;
     _clip_length := _clip_length d;
     _input_chunk_start_index := _input_chunk_start_index d;
     _classifier_sample_rate := _classifier_sample_rate d;
     _classifier_waveform_length := _classifier_waveform_length d;
     _hop_size := _hop_size d;
     _waveforms := _waveforms d |}.

Definition set_input_chunk_start_index (d : Detector) (i : Z) : Detector :=
  {| _input_sample_rate := _input_sample_rate d;
     _input_buffer := _input_buffer d;
     _input_chunk_size := _input_chunk_size d;
     _thresholds := _thresholds d;
     _min_separation := _min_separation d;
     _clip_start_offset := _clip_start_offset d;
     _clip_length := _clip_length d;
     _input_chunk_start_index := i;
     _classifier_sample_rate := _classifier_sample_rate d;
     _classifier_waveform_length := _classifier_waveform_length d;
     _hop_size := _hop_size d;
     _waveforms := _waveforms d |}.

Definition set_waveforms (d : Detector) (w : list (list sample))
  : Detector :=
  {| _input_sample_rate := _input_sample_rate d;
     _input_buffer := _input_buffer d;
     _input_chunk_size := _input_chunk_size d;
     _thresholds := _thresholds d;
     _min_separation := _min_separation d;
     _clip_start_offset := _clip_start_offset d;
     _clip_length := _clip_length d;
     _input_chunk_start_index := _input_chunk_start_index d;
     _classifier_sample_rate := _classifier_sample_rate d;
     _classifier_waveform_length := _classifier_waveform_length d;
     _hop_size := _hop_size d;
     _waveforms := Some w |}.

(** *** Construction *)

(** [sorted(set(...))]: ascending, one copy of equal values. *)
Fixpoint insert_threshold (x : Q) (l : list Q) : list Q :=
  match l with
  | [] => [x]
  | y :: l' =>
      if Qeq_bool x y then l
      else if Qle_bool x y then x :: l
      else y :: insert_threshold x l'
  end.

Definition _get_thresholds (s : Settings) (extra_thresholds : option (list Q))
  : list Q :=
  let thresholds := [threshold s] in
  match extra_thresholds with
  | None => thresholds
  | Some extra => fold_right insert_threshold thresholds extra
  end.

(** [__init__] raises nowhere of its own: it converts the settings and
    stores them, and loads the classifier settings and the estimator of
    the clip type, which can fail. *)
Definition __init__ (s : Settings) (input_sample_rate : Q)
           (extra_thresholds : option (list Q)) : M Detector :=
  (let s2f := seconds_to_frames in
   let fs := input_sample_rate in
   cs <- call (_load_classifier_settings (clip_type s));;
   _estimator <- call (_create_estimator (clip_type s));;
   let cfs := waveform_sample_rate cs in
   let fraction := (hop_size s / 100)%Q in
   ret {| _input_sample_rate := input_sample_rate;
         _input_buffer := None;
         _input_chunk_size := s2f (input_chunk_size s) fs;
         _thresholds := _get_thresholds s extra_thresholds;
         _min_separation := min_separation s;
         _clip_start_offset := - s2f (initial_clip_padding s) fs;
         _clip_length := s2f (clip_duration s) fs;
         _input_chunk_start_index := 0;
         _classifier_sample_rate := cfs;
         _classifier_waveform_length := s2f (waveform_duration cs) cfs;
         _hop_size := s2f (fraction * waveform_duration cs)%Q cfs;
         _waveforms := None |})%det.

(** *** Peaks and clips *)

Definition _find_peaks (d : Detector) (scores : list Q) (threshold : Q)
  : list Z :=
  let min_separation :=
    match _min_separation d with
    | None => None
    | Some ms =>
        (* min separation in hops *)
        let hop_size :=
          get_duration (_hop_size d) (_classifier_sample_rate d) in
        Some (ms / hop_size)%Q
    end in
  find_peaks scores threshold min_separation.

Fixpoint for_each {A : Type} (body : A -> M unit) (l : list A) : M unit :=
  match l with
  | [] => ret tt
  | x :: l' => (body x;;; for_each body l')%det
  end.

(** The body of the loop of [_notify_listener_of_clips], for one peak
    index [i] already multiplied by the hop size. *)
Definition notify_clip (d : Detector) (start_offset input_length : Z)
           (threshold : Q) (i : Z) : M unit :=
  let t := get_duration i (_classifier_sample_rate d) in
  let i := seconds_to_frames t (_input_sample_rate d) in
  let clip_start_index := i + start_offset in
  let clip_end_index := clip_start_index + _clip_length d in
  let chunk_end_index := _input_chunk_start_index d + input_length in
  if clip_start_index <? 0 then
    emit (LogWarning
            "Rejected clip that started before beginning of recording.")
  else if clip_end_index >? chunk_end_index then
    emit (LogWarning
            "Rejected clip that ended after end of recording chunk.")
  else
    emit (ProcessClip clip_start_index (_clip_length d) threshold).

Definition _notify_listener_of_clips (d : Detector) (peak_indices : list Z)
           (input_length : Z) (threshold : Q) : M unit :=
  let start_offset := _input_chunk_start_index d + _clip_start_offset d in
  let peak_indices := map (fun p => p * _hop_size d) peak_indices in
  for_each (notify_clip d start_offset input_length threshold) peak_indices.

(** *** Chunks *)

Definition to_classifier_rate (d : Detector) (samples : list sample)
  : exn + list sample :=
  if negb (Qeq_bool (_classifier_sample_rate d) (_input_sample_rate d)) then
    resample samples (_input_sample_rate d) (_classifier_sample_rate d)
  else inr samples.

Definition _process_input_chunk (d : Detector) (samples : list sample)
  : M Detector :=
  (let input_length := Z.of_nat (List.length samples) in
   samples <- call (to_classifier_rate d samples);;
   waveforms <- _get_analysis_records
                  samples (_classifier_waveform_length d) (_hop_size d);;
   let d := set_waveforms d waveforms in
   scores <- call (score_dataset_examples waveforms);;
   for_each
     (fun threshold =>
        let peak_indices := _find_peaks d scores threshold in
        _notify_listener_of_clips d peak_indices input_length threshold)
     (_thresholds d);;;
   ret (set_input_chunk_start_index
          d (_input_chunk_start_index d + input_length)))%det.

(** The [while] loop of [_process_input_chunks]. [fuel] bounds the number
    of iterations; [_process_input_chunks] gives it one more than the
    number of buffered samples, which the loop cannot use up when the
    chunk size is positive (lemma [while_chunks_fuel]). With a chunk size
    of zero or less the Python loop runs for ever unless its body raises;
    here it ends in [Diverges]. *)
Fixpoint while_chunks (fuel : nat) (d : Detector) : M Detector :=
  match _input_buffer d with
  | None => raise (TypeError "object of type 'NoneType' has no len()")
  | Some buffer =>
      if _input_chunk_size d <=? SampleBuffer.len buffer then
        match fuel with
        | O => ([], Diverges)
        | S fuel' =>
            (r <- SampleBuffer.read buffer (_input_chunk_size d);;
             let '(chunk, buffer') := r in
             d' <- _process_input_chunk
                     (set_input_buffer d (Some buffer')) chunk;;
             while_chunks fuel' d')%det
        end
      else ret d
  end.

Definition buffered (d : Detector) : nat :=
  match _input_buffer d with
  | None => O
  | Some buffer => List.length buffer
  end.

Definition _process_input_chunks (d : Detector) (process_all_samples : bool)
  : M Detector :=
  (d <- while_chunks (S (buffered d)) d;;
   match _input_buffer d with
   | None => raise (TypeError "object of type 'NoneType' has no len()")
   | Some buffer =>
       if process_all_samples && negb (SampleBuffer.len buffer =? 0) then
         let '(chunk, buffer') := SampleBuffer.read_all buffer in
         _process_input_chunk (set_input_buffer d (Some buffer')) chunk
       else ret d
   end)%det.

(** *** The two public operations *)

Definition detect (d : Detector) (samples : list sample) : M Detector :=
  let buffer :=
    match _input_buffer d with
    | None => SampleBuffer.empty
    | Some buffer => buffer
    end in
  let d := set_input_buffer d (Some (SampleBuffer.write buffer samples)) in
  _process_input_chunks d false.

Definition complete_detection (d : Detector) : M Detector :=
  (d <- _process_input_chunks d true;;
   emit CompleteProcessing;;;
   ret d)%det.

(** A detection session: [detect] on each array in turn, then
    [complete_detection]. An exception ends the session. *)
Fixpoint detect_all (d : Detector) (calls : list (list sample))
  : M Detector :=
  match calls with
  | [] => ret d
  | samples :: calls' => (d' <- detect d samples;; detect_all d' calls')%det
  end.

Definition session (d : Detector) (calls : list (list sample))
  : M Detector :=
  (d' <- detect_all d calls;; complete_detection d')%det.

End Detector.

Arguments Detector sample : clear implicits.

(** ** Stand-ins for the collaborators

    Concrete collaborators, used to run the detector on explicit inputs.
    Samples are integers. *)

Module Reference.

(** Nearest whole number, halves to the even neighbour (Python's
    [round]). *)
Definition round_half_even (x : Q) : Z :=
  let f := Qfloor x in
  let r := (x - inject_Z f)%Q in
  match (r ?= 1 # 2)%Q with
  | Lt => f
  | Gt => f + 1
  | Eq => if Z.even f then f else f + 1
  end.

(** Modelled from the spec: [vesper.util.signal_utils] is not among the
    sources. A duration in seconds becomes a whole number of sample frames
    at a rate, and a number of frames at a rate becomes a duration. *)
Definition seconds_to_frames (seconds frame_rate : Q) : Z :=
  round_half_even (seconds * frame_rate).

Definition get_duration (num_frames : Z) (frame_rate : Q) : Q :=
  (inject_Z num_frames / frame_rate)%Q.

Definition score_at (scores : list Q) (i : Z) : Q :=
  nth (Z.to_nat i) scores 0%Q.

(** Local maxima at or above the threshold: strictly above the left
    neighbour, at least the right one, so that the first index of a
    plateau is taken. *)
Definition is_candidate (scores : list Q) (threshold : Q) (i : Z) : bool :=
  Qle_bool threshold (score_at scores i)
  && negb (Qle_bool (score_at scores i) (score_at scores (i - 1)))
  && Qle_bool (score_at scores (i + 1)) (score_at scores i).

(** Of two candidates closer than the separation, the higher score stays,
    the earlier one on a tie. [accepted] is kept latest first. *)
Fixpoint suppress_close (scores : list Q) (min_separation : Q)
         (accepted candidates : list Z) : list Z :=
  match candidates with
  | [] => rev accepted
  | c :: candidates' =>
      match accepted with
      | [] => suppress_close scores min_separation [c] candidates'
      | a :: accepted' =>
          if Qle_bool min_separation (inject_Z (c - a)) then
            suppress_close scores min_separation (c :: accepted) candidates'
          else if Qle_bool (score_at scores c) (score_at scores a) then
            suppress_close scores min_separation accepted candidates'
          else
            suppress_close scores min_separation (c :: accepted') candidates'
      end
  end.

(** Modelled from the spec: [signal_utils.find_peaks] is not among the
    sources. Section 4.3: the indices [i], ascending, with
    [scores[i] >= threshold], [scores[i] >= scores[i-1]] and
    [scores[i] >= scores[i+1]], the earlier index on a tie; accepted peaks
    are at least the minimum separation apart, the higher score winning;
    no separation constraint when the separation is absent. *)
Definition find_peaks (scores : list Q) (threshold : Q)
           (min_separation : option Q) : list Z :=
  let interior :=
    map (fun k => Z.of_nat k) (seq 1 (List.length scores - 2)) in
  let candidates := filter (is_candidate scores threshold) interior in
  match min_separation with
  | None => candidates
  | Some m => suppress_close scores m [] candidates
  end.

(** A resampler that holds each input sample for as long as the output
    rate requires: [floor (n * to / from)] output samples, as
    [resampy.resample] returns, and like it a [ValueError] when that
    number is less than one (its message, which quotes the length and the
    rates, is shortened here). *)
Definition resample (samples : list Z) (from_rate to_rate : Q)
  : exn + list Z :=
  let n := Qfloor (inject_Z (Z.of_nat (List.length samples))
                   * to_rate / from_rate)%Q in
  if n <? 1 then
    inl (ValueError "Input signal is too small to resample.")
  else
    inr (map (fun j =>
                nth (Z.to_nat
                       (Qfloor (inject_Z (Z.of_nat j) * from_rate / to_rate)%Q))
                    samples 0)
             (seq 0 (Z.to_nat n))).

(** A scorer: the share of non-zero samples in each waveform. *)
Definition score_waveform (w : list Z) : Q :=
  match w with
  | [] => 0%Q
  | _ =>
      (inject_Z (Z.of_nat (List.length (filter (fun x => negb (x =? 0)) w)))
       / inject_Z (Z.of_nat (List.length w)))%Q
  end.

Definition score_dataset_examples (waveforms : list (list Z))
  : exn + list Q :=
  inr (map score_waveform waveforms).

(** Another scorer: 1 for a waveform whose first and last samples differ,
    0 for the others. *)
Definition score_change (w : list Z) : Q :=
  if hd 0 w =? last w 0 then 0%Q else 1%Q.

Definition score_changes (waveforms : list (list Z)) : exn + list Q :=
  inr (map score_change waveforms).

(** Classifier settings and an estimator for the clip types "Tseep" and
    "Thrush": waveforms of [duration] seconds at [rate] Hz. For any other
    clip type there is no file to load. *)
Definition known_clip_type (clip_type : string) : bool :=
  String.eqb clip_type "Tseep" || String.eqb clip_type "Thrush".

Definition load_classifier_settings (rate duration : Q) (clip_type : string)
  : exn + ClassifierSettings :=
  if known_clip_type clip_type then
    inr {| waveform_sample_rate := rate; waveform_duration := duration |}
  else inl (OSError "No such file or directory").

Definition create_estimator (clip_type : string) : exn + unit :=
  if known_clip_type clip_type then inr tt
  else inl (OSError "SavedModel file does not exist").

Definition collaborators_scoring
           (scorer : list (list Z) -> exn + list Q) (rate duration : Q)
  : Collaborators Z :=
  Build_Collaborators Z
    resample scorer find_peaks seconds_to_frames get_duration
    (load_classifier_settings rate duration) create_estimator.

Definition collaborators (rate duration : Q) : Collaborators Z :=
  collaborators_scoring score_dataset_examples rate duration.

End Reference.

(** ** Vocabulary of the properties *)

Section Vocabulary.
Context {sample : Type} `{C : Collaborators sample}.
Implicit Types (d : Detector sample) (c : list sample).

(** The buffered samples, none before the buffer exists. *)
Definition buffer_of d : list sample :=
  match _input_buffer d with
  | None => []
  | Some buffer => buffer
  end.

(** The detector once a chunk of [n] samples, sliced into the waveforms
    [w], has been processed. *)
Definition after_chunk d (w : list (list sample)) (n : Z)
  : Detector sample :=
  set_input_chunk_start_index
    (set_waveforms d w) (_input_chunk_start_index d + n).

(** The configuration of a detector: the attributes that no method
    assigns after construction. The buffer, the chunk start index and the
    waveforms are blanked. *)
Definition config d : Detector sample :=
  {| _input_sample_rate := _input_sample_rate d;
     _input_buffer := None;
     _input_chunk_size := _input_chunk_size d;
     _thresholds := _thresholds d;
     _min_separation := _min_separation d;
     _clip_start_offset := _clip_start_offset d;
     _clip_length := _clip_length d;
     _input_chunk_start_index := 0;
     _classifier_sample_rate := _classifier_sample_rate d;
     _classifier_waveform_length := _classifier_waveform_length d;
     _hop_size := _hop_size d;
     _waveforms := None |}.

(** The listener and logger calls of one chunk, given the scores of its
    waveforms. *)
Definition chunk_events d (scores : list Q) (input_length : Z) : M unit :=
  for_each
    (fun threshold =>
       _notify_listener_of_clips
         d (_find_peaks d scores threshold) input_length threshold)
    (_thresholds d).

(** What a chunk is turned into before any clip is reported: its
    waveforms, at the classifier rate, and their scores. *)
Definition chunk_inputs d c : M (list (list sample) * list Q) :=
  (c' <- call (to_classifier_rate d c);;
   w <- _get_analysis_records
          c' (_classifier_waveform_length d) (_hop_size d);;
   scores <- call (score_dataset_examples w);;
   ret (w, scores))%det.

(** The resampler returns for a chunk, and the scorer for its waveforms. *)
Definition collaborators_return d c : Prop :=
  exists c',
    to_classifier_rate d c = inr c' /\
    forall t w,
      _get_analysis_records
        c' (_classifier_waveform_length d) (_hop_size d) = (t, Returns w) ->
      exists scores, score_dataset_examples w = inr scores.

(** They do for every chunk of the configured size. *)
Definition full_chunks_succeed d : Prop :=
  forall c,
    Z.of_nat (List.length c) = _input_chunk_size d -> collaborators_return d c.

(** The exception a chunk raises when the record and hop size are
    malformed: the resampler's, if it raises on the chunk; the windowing
    step's [ValueError] if not. *)
Definition malformed_chunk_error d c (e : exn) : Prop :=
  match to_classifier_rate d c with
  | inl e' => e = e'
  | inr _ => exists msg, e = ValueError msg
  end.

(** The first chunk that [_process_input_chunks] cuts from a buffer [b]
    that is not empty: a chunk of the configured size if the buffer holds
    one, the whole buffer if not (and then only when all samples are to be
    processed). *)
Definition first_chunk d (b : list sample) : list sample :=
  if _input_chunk_size d <=? SampleBuffer.len b
  then firstn (Z.to_nat (_input_chunk_size d)) b
  else b.


(** The absolute index up to which samples have been handed over: the
    chunk start index plus what is still buffered. *)
Definition received d : Z :=
  _input_chunk_start_index d + SampleBuffer.len (buffer_of d).

Definition clip_in_range (upto : Z) (e : event) : Prop :=
  match e with
  | ProcessClip s l _ => 0 <= s /\ s + l <= upto
  | _ => True
  end.

Definition malformed_windowing (record_size hop_size : Z) : Prop :=
  record_size <= 0 \/ hop_size <= 0 \/ hop_size > record_size.

Definition num_windows (n record_size hop_size : Z) : Z :=
  if n <? record_size then 0
  else (n - (record_size - hop_size)) / hop_size.

(** The clip a peak stands for: its start, in input samples, and whether
    [_notify_listener_of_clips] turns it down. *)
Definition clip_start_index d (peak : Z) : Z :=
  seconds_to_frames
    (get_duration (peak * _hop_size d) (_classifier_sample_rate d))
    (_input_sample_rate d)
  + (_input_chunk_start_index d + _clip_start_offset d).

Definition clip_end_index d (peak : Z) : Z :=
  clip_start_index d peak + _clip_length d.

Definition rejected d (input_length peak : Z) : Prop :=
  clip_start_index d peak < 0 \/
  clip_end_index d peak > _input_chunk_start_index d + input_length.

Definition outcome_of_peak d (input_length : Z) (threshold : Q)
           (peak : Z) (e : event) : Prop :=
  (rejected d input_length peak /\ exists msg, e = LogWarning msg) \/
  (~ rejected d input_length peak /\
   e = ProcessClip (clip_start_index d peak) (_clip_length d) threshold).

(** Resampling a chunk that is not empty and shorter than a record
    returns, and does not make it as long as a record. It is so when the
    input and classifier rates are equal: the chunk is then not
    resampled. *)
Definition stays_short d : Prop :=
  forall c,
    0 < Z.of_nat (List.length c) < _classifier_waveform_length d ->
    exists c',
      to_classifier_rate d c = inr c' /\
      Z.of_nat (List.length c') < _classifier_waveform_length d.


(** What a chunk can make the detector do to the outside: log a warning,
    or hand over a clip of the configured length at one of the configured
    thresholds. *)
Definition chunk_event d (e : event) : Prop :=
  match e with
  | ProcessClip _ l th => l = _clip_length d /\ In th (_thresholds d)
  | CompleteProcessing => False
  | LogWarning _ => True
  end.

(** The number of peaks in the scores of a chunk, over all thresholds. *)
Definition peak_total d (scores : list Q) : nat :=
  list_sum
    (map (fun threshold => List.length (_find_peaks d scores threshold))
         (_thresholds d)).



(** Whether [_notify_listener_of_clips] hands the clip of a peak over,
    and the clip it then hands over. *)
Definition accepted d (input_length peak : Z) : bool :=
  negb (clip_start_index d peak <? 0)
  && negb (clip_end_index d peak
           >? _input_chunk_start_index d + input_length).




(** The part of a session before [complete_processing] is called: the
    [detect] calls and the chunks of [complete_detection]. *)
Definition session_chunks d (calls : list (list sample))
  : M (Detector sample) :=
  bind (detect_all d calls) (fun d1 => _process_input_chunks d1 true).

(** The thresholds of the clips of a trace, in order. *)
Definition clip_thresholds (t : list event) : list Q :=
  map (fun c : clip => snd c) (clips_of t).

End Vocabulary.

(** ** Worked inputs *)

Module Example.

(** A classifier that takes waveforms of 4 s at 1 Hz, and a detector fed
    at the same rate: chunks of 12 samples, records of 4 samples every 2
    samples, clips of 4 samples starting 1 sample before the peak. *)
Definition collaborators : Collaborators Z := Reference.collaborators 1 4.

Definition settings : Settings :=
  {| clip_type := "Tseep";
     input_chunk_size := 12;
     hop_size := 50;
     threshold := 1 # 2;
     min_separation := Some 2%Q;
     initial_clip_padding := 1;
     clip_duration := 4 |}.

Definition new_detector : Detector Z :=
  {| _input_sample_rate := 1;
     _input_buffer := None;
     _input_chunk_size := 12;
     _thresholds := [1 # 2];
     _min_separation := Some 2%Q;
     _clip_start_offset := -1;
     _clip_length := 4;
     _input_chunk_start_index := 0;
     _classifier_sample_rate := 1;
     _classifier_waveform_length := 4;
     _hop_size := 2;
     _waveforms := None |}.

(** 33 samples with two calls in them, in one array and cut in three. *)
Definition recording : list Z :=
  [0; 0; 0; 0; 0; 5; 5; 5; 0; 0; 0; 0; 0; 0; 0; 0; 0; 0; 5; 5; 5; 5; 0; 0; 0;
   0; 0; 0; 0; 0; 0; 0; 0].

Definition recording_in_three : list (list Z) :=
  [[0; 0; 0; 0; 0; 5; 5]; [];
   [5; 0; 0; 0; 0; 0; 0; 0; 0; 0; 0; 5; 5; 5; 5; 0; 0; 0; 0; 0];
   [0; 0; 0; 0; 0; 0]].

(** The same settings with a hop size of 0 percent. *)
Definition settings_without_hop : Settings :=
  {| clip_type := "Tseep";
     input_chunk_size := 12;
     hop_size := 0;
     threshold := 1 # 2;
     min_separation := Some 2%Q;
     initial_clip_padding := 1;
     clip_duration := 4 |}.

Definition detector_without_hop : Detector Z :=
  {| _input_sample_rate := 1;
     _input_buffer := None;
     _input_chunk_size := 12;
     _thresholds := [1 # 2];
     _min_separation := Some 2%Q;
     _clip_start_offset := -1;
     _clip_length := 4;
     _input_chunk_start_index := 0;
     _classifier_sample_rate := 1;
     _classifier_waveform_length := 4;
     _hop_size := 0;
     _waveforms := None |}.

(** A classifier that takes waveforms of 4 s at 2 Hz, fed from input at
    1 Hz: records of 8 samples every 2 samples at the classifier rate,
    clips of 2 input samples starting at the peak. *)
Definition upsampling : Collaborators Z := Reference.collaborators 2 4.

Definition upsampling_settings : Settings :=
  {| clip_type := "Tseep";
     input_chunk_size := 100;
     hop_size := 25;
     threshold := 7 # 10;
     min_separation := None;
     initial_clip_padding := 0;
     clip_duration := 2 |}.

Definition upsampling_detector : Detector Z :=
  {| _input_sample_rate := 1;
     _input_buffer := None;
     _input_chunk_size := 100;
     _thresholds := [7 # 10];
     _min_separation := None;
     _clip_start_offset := 0;
     _clip_length := 2;
     _input_chunk_start_index := 0;
     _classifier_sample_rate := 2;
     _classifier_waveform_length := 8;
     _hop_size := 2;
     _waveforms := None |}.

(** The first detector with a second, higher threshold. *)
Definition two_threshold_detector : Detector Z :=
  {| _input_sample_rate := 1;
     _input_buffer := None;
     _input_chunk_size := 12;
     _thresholds := [1 # 2; 9 # 10];
     _min_separation := Some 2%Q;
     _clip_start_offset := -1;
     _clip_length := 4;
     _input_chunk_start_index := 0;
     _classifier_sample_rate := 1;
     _classifier_waveform_length := 4;
     _hop_size := 2;
     _waveforms := None |}.

(** What [detect] on the whole recording, the session cut in three, one
    chunk of the detector with two thresholds and [complete_detection] with
    three samples left do and leave. *)
Definition detect_recording_events : list event :=
  Eval vm_compute in
    fst (detect (C := collaborators) new_detector recording).

Definition detect_recording_state : Detector Z :=
  Eval vm_compute in
    match snd (detect (C := collaborators) new_detector recording) with
    | Returns d => d
    | _ => new_detector
    end.

Definition session_in_three_events : list event :=
  Eval vm_compute in
    fst (session (C := collaborators) new_detector recording_in_three).

Definition session_in_three_state : Detector Z :=
  Eval vm_compute in
    match snd (session (C := collaborators) new_detector recording_in_three)
    with
    | Returns d => d
    | _ => new_detector
    end.

Definition two_threshold_chunk : list Z :=
  [0; 0; 0; 0; 5; 5; 5; 5; 0; 0; 0; 0].

Definition two_threshold_chunk_events : list event :=
  Eval vm_compute in
    fst (_process_input_chunk
           (C := collaborators) two_threshold_detector two_threshold_chunk).

Definition two_threshold_chunk_state : Detector Z :=
  Eval vm_compute in
    match snd (_process_input_chunk
                 (C := collaborators) two_threshold_detector
                 two_threshold_chunk)
    with
    | Returns d => d
    | _ => two_threshold_detector
    end.

(** The first classifier fed from input at 2 Hz: chunks of 24 samples,
    halved by the resampler. *)
Definition downsampling_detector : Detector Z :=
  {| _input_sample_rate := 2;
     _input_buffer := None;
     _input_chunk_size := 24;
     _thresholds := [1 # 2];
     _min_separation := Some 2%Q;
     _clip_start_offset := -2;
     _clip_length := 8;
     _input_chunk_start_index := 0;
     _classifier_sample_rate := 1;
     _classifier_waveform_length := 4;
     _hop_size := 2;
     _waveforms := None |}.

(** A classifier that takes waveforms of 1 s at 2 Hz and marks those
    across which the signal changes, fed from input at 1 Hz: records of 2
    samples every sample at the classifier rate, peaks at least 1 s apart,
    clips of 2 input samples starting at the peak. *)
Definition marking_changes : Collaborators Z :=
  Reference.collaborators_scoring Reference.score_changes 2 1.

Definition settings_for_changes : Settings :=
  {| clip_type := "Thrush";
     input_chunk_size := 8;
     hop_size := 50;
     threshold := 1 # 2;
     min_separation := Some 1%Q;
     initial_clip_padding := 0;
     clip_duration := 2 |}.

Definition detector_of_changes : Detector Z :=
  {| _input_sample_rate := 1;
     _input_buffer := None;
     _input_chunk_size := 8;
     _thresholds := [1 # 2];
     _min_separation := Some 1%Q;
     _clip_start_offset := 0;
     _clip_length := 2;
     _input_chunk_start_index := 0;
     _classifier_sample_rate := 2;
     _classifier_waveform_length := 2;
     _hop_size := 1;
     _waveforms := None |}.



(** Settings for a clip type that has no classifier. *)
Definition settings_of_unknown_type : Settings :=
  {| clip_type := "Chip";
     input_chunk_size := 12;
     hop_size := 50;
     threshold := 1 # 2;
     min_separation := Some 2%Q;
     initial_clip_padding := 1;
     clip_duration := 4 |}.

Definition three_samples_left : Detector Z :=
  set_input_buffer new_detector (Some [0; 0; 0]).

Definition three_samples_done : Detector Z :=
  Eval vm_compute in
    match snd (complete_detection (C := collaborators) three_samples_left)
    with
    | Returns d => d
    | _ => new_detector
    end.

End Example.

(** ** Laws of the computation type *)

Lemma bind_ret_l {A B} (a : A) (f : A -> M B) : bind (ret a) f = f a.
Proof. unfold bind, ret; simpl. destruct (f a); reflexivity. Qed.

Lemma bind_ret_r {A} (m : M A) : bind m ret = m.
Proof.
  destruct m as [t [a | e |]]; unfold bind; simpl; try reflexivity.
  now rewrite app_nil_r.
Qed.

Lemma bind_assoc {A B D} (m : M A) (f : A -> M B) (g : B -> M D) :
  bind (bind m f) g = bind m (fun a => bind (f a) g).
Proof.
  destruct m as [t [a | e |]]; unfold bind; simpl; try reflexivity.
  destruct (f a) as [t' [b | e |]]; simpl; try reflexivity.
  now rewrite app_assoc.
Qed.

Lemma bind_ext {A B} (m : M A) (f g : A -> M B) :
  (forall a, snd m = Returns a -> f a = g a) -> bind m f = bind m g.
Proof.
  destruct m as [t [a | e |]]; unfold bind; simpl; intros H; try reflexivity.
  now rewrite (H a eq_refl).
Qed.

Lemma bind_returns {A B} (t : list event) (a : A) (f : A -> M B) :
  bind (t, Returns a) f = (t ++ fst (f a), snd (f a)).
Proof. reflexivity. Qed.

Lemma bind_returns_inv {A B} (m : M A) (f : A -> M B) t b :
  bind m f = (t, Returns b) ->
  exists t1 a t2,
    m = (t1, Returns a) /\ f a = (t2, Returns b) /\ t = t1 ++ t2.
Proof.
  destruct m as [t1 [a | e |]]; unfold bind; simpl; intros H;
    try discriminate.
  exists t1, a, (fst (f a)). inversion H; subst.
  repeat split. destruct (f a); simpl in *; congruence.
Qed.

Lemma bind_events {A B} (m : M A) (f : A -> M B) e :
  In e (fst (bind m f)) ->
  In e (fst m) \/ exists a, snd m = Returns a /\ In e (fst (f a)).
Proof.
  destruct m as [t [a | x |]]; unfold bind; simpl; auto.
  intros H. apply in_app_or in H as [H | H]; eauto.
Qed.

Lemma bind_not_diverges {A B} (m : M A) (f : A -> M B) :
  snd m <> Diverges ->
  (forall a, snd m = Returns a -> snd (f a) <> Diverges) ->
  snd (bind m f) <> Diverges.
Proof.
  destruct m as [t [a | x |]]; unfold bind; simpl; intros H1 H2;
    try congruence.
  now apply H2.
Qed.

(** ** Windowing facts *)

Lemma num_records_malformed (n r h : Z) :
  r <= 0 \/ h <= 0 \/ h > r ->
  exists msg, _get_num_analysis_records n r h = ([], Raises (ValueError msg)).
Proof.
  intros H. unfold _get_num_analysis_records.
  destruct (r <=? 0) eqn:Er; [eexists; reflexivity |].
  destruct (h <=? 0) eqn:Eh; [eexists; reflexivity |].
  destruct (h >? r) eqn:Ehr; [eexists; reflexivity |].
  apply Z.leb_gt in Er, Eh. rewrite Z.gtb_ltb in Ehr. apply Z.ltb_ge in Ehr.
  lia.
Qed.

Lemma num_records_wellformed (n r h : Z) :
  0 < h <= r ->
  _get_num_analysis_records n r h =
  ret (if n <? r then 0 else (n - (r - h)) / h).
Proof.
  intros [Hh Hr]. unfold _get_num_analysis_records.
  destruct (r <=? 0) eqn:Er; [apply Z.leb_le in Er; lia |].
  destruct (h <=? 0) eqn:Eh; [apply Z.leb_le in Eh; lia |].
  destruct (h >? r) eqn:Ehr;
    [rewrite Z.gtb_ltb in Ehr; apply Z.ltb_lt in Ehr; lia |].
  destruct (n <? r); reflexivity.
Qed.

Lemma num_records_nonneg (n r h : Z) :
  0 < h <= r -> 0 <= (if n <? r then 0 else (n - (r - h)) / h).
Proof.
  intros H. destruct (n <? r) eqn:E; [lia |].
  apply Z.ltb_ge in E. apply Z.div_pos; lia.
Qed.

(** ** Facts about one chunk *)

Section ChunkFacts.
Context {sample : Type} `{C : Collaborators sample}.
Implicit Types (d : Detector sample) (c : list sample).

Lemma for_each_returns {A} (body : A -> M unit) (l : list A) :
  (forall x, In x l -> snd (body x) = Returns tt) ->
  snd (for_each body l) = Returns tt.
Proof.
  induction l as [| x l IH]; simpl; intros H; [reflexivity |].
  unfold bind. rewrite (H x (or_introl eq_refl)). simpl.
  apply IH. intros y Hy. apply H. now right.
Qed.

Lemma for_each_events {A} (body : A -> M unit) (l : list A) e :
  In e (fst (for_each body l)) ->
  exists x, In x l /\ In e (fst (body x)).
Proof.
  induction l as [| x l IH]; simpl; intros H; [contradiction |].
  apply bind_events in H as [H | (a & _ & H)].
  - exists x. auto.
  - destruct (IH H) as (y & Hy & He). exists y. auto.
Qed.


Lemma notify_clip_returns d start_offset input_length th i :
  snd (notify_clip d start_offset input_length th i) = Returns tt.
Proof.
  unfold notify_clip.
  destruct (_ <? 0); [reflexivity |]. destruct (_ >? _); reflexivity.
Qed.

Lemma notify_clip_bound d input_length th i s l th' :
  In (ProcessClip s l th')
     (fst (notify_clip
             d (_input_chunk_start_index d + _clip_start_offset d)
             input_length th i)) ->
  0 <= s /\ s + l <= _input_chunk_start_index d + input_length.
Proof.
  unfold notify_clip.
  destruct (_ <? 0) eqn:E1.
  { simpl. intros [H | []]. discriminate. }
  destruct (_ >? _) eqn:E2.
  { simpl. intros [H | []]. discriminate. }
  simpl. intros [H | []]. inversion H; subst.
  apply Z.ltb_ge in E1. rewrite Z.gtb_ltb in E2. apply Z.ltb_ge in E2.
  split; assumption.
Qed.

Lemma notify_returns d peaks input_length th :
  snd (_notify_listener_of_clips d peaks input_length th) = Returns tt.
Proof.
  apply for_each_returns. intros. apply notify_clip_returns.
Qed.

Lemma chunk_events_returns d scores n :
  snd (chunk_events d scores n) = Returns tt.
Proof. apply for_each_returns. intros. apply notify_returns. Qed.

Lemma call_silent {A} (r : exn + A) : fst (call r) = [].
Proof. destruct r; reflexivity. Qed.

Lemma call_not_diverges {A} (r : exn + A) : snd (call r) <> Diverges.
Proof. destruct r; discriminate. Qed.

Lemma records_silent c (r h : Z) :
  fst (@_get_analysis_records sample c r h) = [].
Proof.
  unfold _get_analysis_records, _get_num_analysis_records.
  destruct (r <=? 0); [reflexivity |].
  destruct (h <=? 0); [reflexivity |].
  destruct (h >? r); [reflexivity |].
  destruct (_ <? r); reflexivity.
Qed.

Lemma records_not_diverge c (r h : Z) :
  snd (@_get_analysis_records sample c r h) <> Diverges.
Proof.
  unfold _get_analysis_records, _get_num_analysis_records.
  destruct (r <=? 0); [discriminate |].
  destruct (h <=? 0); [discriminate |].
  destruct (h >? r); [discriminate |].
  destruct (_ <? r); discriminate.
Qed.

Lemma records_unfold c (r h : Z) :
  0 < h <= r ->
  exists w, @_get_analysis_records sample c r h = ret w /\
            List.length w =
            Z.to_nat (if Z.of_nat (List.length c) <? r then 0
                      else (Z.of_nat (List.length c) - (r - h)) / h).
Proof.
  intros H. unfold _get_analysis_records.
  rewrite (num_records_wellformed _ _ _ H), bind_ret_l.
  eexists. split; [reflexivity |]. now rewrite length_map, length_seq.
Qed.

Lemma records_malformed c (r h : Z) :
  r <= 0 \/ h <= 0 \/ h > r ->
  exists msg,
    @_get_analysis_records sample c r h = ([], Raises (ValueError msg)).
Proof.
  intros H. unfold _get_analysis_records.
  destruct (num_records_malformed (Z.of_nat (List.length c)) r h H)
    as (msg & Hm).
  exists msg. now rewrite Hm.
Qed.

Lemma chunk_inputs_silent d c : fst (chunk_inputs d c) = [].
Proof.
  unfold chunk_inputs.
  destruct (to_classifier_rate d c) as [e | c']; [reflexivity |].
  simpl call. rewrite bind_ret_l.
  pose proof (records_silent c' (_classifier_waveform_length d) (_hop_size d))
    as Hs.
  destruct (_get_analysis_records _ _ _) as [t [w | e |]];
    simpl in Hs; subst t; try reflexivity.
  unfold bind at 1. cbn [fst snd app].
  destruct (score_dataset_examples w); reflexivity.
Qed.

Lemma chunk_inputs_not_diverges d c : snd (chunk_inputs d c) <> Diverges.
Proof.
  unfold chunk_inputs.
  apply bind_not_diverges; [apply call_not_diverges |]. intros c' _.
  apply bind_not_diverges; [apply records_not_diverge |]. intros w _.
  apply bind_not_diverges; [apply call_not_diverges | discriminate].
Qed.

Lemma chunk_inputs_inv d c t w scores :
  chunk_inputs d c = (t, Returns (w, scores)) ->
  exists c',
    to_classifier_rate d c = inr c' /\
    _get_analysis_records
      c' (_classifier_waveform_length d) (_hop_size d) = ([], Returns w) /\
    score_dataset_examples w = inr scores.
Proof.
  unfold chunk_inputs. intros H.
  apply bind_returns_inv in H as (t1 & c' & t2 & H1 & H2 & _).
  apply bind_returns_inv in H2 as (t3 & w' & t4 & H3 & H4 & _).
  apply bind_returns_inv in H4 as (t5 & sc & t6 & H5 & H6 & _).
  inversion H6; subst w' sc.
  exists c'. repeat split.
  - destruct (to_classifier_rate d c); inversion H1. reflexivity.
  - pose proof (records_silent c' (_classifier_waveform_length d)
                               (_hop_size d)) as Hs.
    rewrite H3 in Hs. simpl in Hs. now subst t3.
  - destruct (score_dataset_examples w); inversion H5. reflexivity.
Qed.

Lemma chunk_inputs_returns d c :
  0 < _hop_size d <= _classifier_waveform_length d ->
  collaborators_return d c ->
  exists w scores, chunk_inputs d c = ret (w, scores).
Proof.
  intros Hw (c' & Hc' & Hscore). unfold chunk_inputs.
  rewrite Hc'. simpl call. rewrite bind_ret_l.
  destruct (records_unfold c' _ _ Hw) as (w & Hrec & _).
  destruct (Hscore [] w Hrec) as (scores & Hs).
  rewrite Hrec, bind_ret_l, Hs. simpl call. rewrite bind_ret_l. eauto.
Qed.

Lemma chunk_inputs_malformed d c :
  malformed_windowing (_classifier_waveform_length d) (_hop_size d) ->
  exists e,
    chunk_inputs d c = ([], Raises e) /\ malformed_chunk_error d c e.
Proof.
  intros Hbad. unfold chunk_inputs, malformed_chunk_error.
  destruct (to_classifier_rate d c) as [e | c'].
  - exists e. split; reflexivity.
  - simpl call. rewrite bind_ret_l.
    destruct (records_malformed c' _ _ Hbad) as (msg & Hm).
    rewrite Hm. exists (ValueError msg). split; [reflexivity | eauto].
Qed.


Lemma process_chunk_unfold d c :
  _process_input_chunk d c =
  bind (chunk_inputs d c)
       (fun ws =>
          (fst (chunk_events d (snd ws) (Z.of_nat (List.length c))),
           Returns (after_chunk d (fst ws) (Z.of_nat (List.length c))))).
Proof.
  unfold _process_input_chunk, chunk_inputs.
  rewrite !bind_assoc. apply bind_ext. intros c' _.
  rewrite !bind_assoc. apply bind_ext. intros w _.
  rewrite !bind_assoc. apply bind_ext. intros scores _.
  rewrite bind_ret_l. cbn [fst snd].
  pose proof (chunk_events_returns d scores (Z.of_nat (List.length c))) as H.
  unfold chunk_events in H. unfold bind at 1.
  match goal with
  | |- match snd ?m with _ => _ end = _ =>
      replace m with (chunk_events d scores (Z.of_nat (List.length c)))
        by reflexivity
  end.
  unfold chunk_events at 1. rewrite H. simpl. now rewrite app_nil_r.
Qed.

Lemma process_chunk_inv d c t d' :
  _process_input_chunk d c = (t, Returns d') ->
  exists w, d' = after_chunk d w (Z.of_nat (List.length c)).
Proof.
  rewrite process_chunk_unfold. intros H.
  apply bind_returns_inv in H as (t1 & ws & t2 & _ & H & _).
  exists (fst ws). congruence.
Qed.

Lemma process_chunk_frame d c b :
  _process_input_chunk (set_input_buffer d b) c =
  bind (_process_input_chunk d c) (fun d' => ret (set_input_buffer d' b)).
Proof.
  rewrite !process_chunk_unfold, bind_assoc.
  change (chunk_inputs (set_input_buffer d b) c) with (chunk_inputs d c).
  apply bind_ext. intros ws _. unfold bind, ret. simpl.
  rewrite app_nil_r. reflexivity.
Qed.

Lemma process_chunk_not_diverges d c :
  snd (_process_input_chunk d c) <> Diverges.
Proof.
  rewrite process_chunk_unfold. apply bind_not_diverges.
  - apply chunk_inputs_not_diverges.
  - discriminate.
Qed.

Lemma process_chunk_wellformed d c :
  0 < _hop_size d <= _classifier_waveform_length d ->
  collaborators_return d c ->
  exists t w, _process_input_chunk d c =
              (t, Returns (after_chunk d w (Z.of_nat (List.length c)))).
Proof.
  intros H Hret. rewrite process_chunk_unfold.
  destruct (chunk_inputs_returns d c H Hret) as (w & scores & Hw).
  rewrite Hw, bind_ret_l. eauto.
Qed.

Lemma process_chunk_malformed d c :
  malformed_windowing (_classifier_waveform_length d) (_hop_size d) ->
  exists e,
    _process_input_chunk d c = ([], Raises e) /\ malformed_chunk_error d c e.
Proof.
  intros H. rewrite process_chunk_unfold.
  destruct (chunk_inputs_malformed d c H) as (e & He & Hmsg).
  exists e. rewrite He. split; [reflexivity | exact Hmsg].
Qed.

Lemma chunk_events_bound d scores n s l th :
  In (ProcessClip s l th) (fst (chunk_events d scores n)) ->
  0 <= s /\ s + l <= _input_chunk_start_index d + n.
Proof.
  intros H. apply for_each_events in H as (th0 & _ & H).
  apply for_each_events in H as (i & _ & H).
  now apply notify_clip_bound in H.
Qed.

Lemma process_chunk_bound d c s l th :
  In (ProcessClip s l th) (fst (_process_input_chunk d c)) ->
  0 <= s /\
  s + l <= _input_chunk_start_index d + Z.of_nat (List.length c).
Proof.
  rewrite process_chunk_unfold. intros H.
  apply bind_events in H as [H | (ws & _ & H)].
  - rewrite chunk_inputs_silent in H. contradiction.
  - simpl in H. now apply chunk_events_bound in H.
Qed.

End ChunkFacts.

(** ** Facts about the chunk loop *)

Section LoopFacts.
Context {sample : Type} `{C : Collaborators sample}.
Implicit Types (d : Detector sample) (b c s : list sample).

Lemma snd_returns {A} (m : M A) (a : A) :
  snd m = Returns a -> m = (fst m, Returns a).
Proof. destruct m; simpl; congruence. Qed.

Lemma read_ok b (n : Z) :
  n <= SampleBuffer.len b ->
  SampleBuffer.read b n =
  ret (firstn (Z.to_nat n) b, skipn (Z.to_nat n) b).
Proof.
  intros H. unfold SampleBuffer.read.
  destruct (SampleBuffer.len b <? n) eqn:E; [| reflexivity].
  apply Z.ltb_lt in E. lia.
Qed.

Lemma while_chunks_none fuel d :
  _input_buffer d = None ->
  while_chunks fuel d =
  raise (TypeError "object of type 'NoneType' has no len()").
Proof. intros H. destruct fuel; cbn [while_chunks]; now rewrite H. Qed.

Lemma while_chunks_stop fuel d b :
  _input_buffer d = Some b ->
  SampleBuffer.len b < _input_chunk_size d ->
  while_chunks fuel d = ret d.
Proof.
  intros Hb Hlt. apply Z.leb_gt in Hlt.
  destruct fuel; cbn [while_chunks]; now rewrite Hb, Hlt.
Qed.

Lemma while_chunks_out_of_fuel d b :
  _input_buffer d = Some b ->
  _input_chunk_size d <= SampleBuffer.len b ->
  while_chunks 0 d = ([], Diverges).
Proof.
  intros Hb Hle. apply Z.leb_le in Hle.
  cbn [while_chunks]. now rewrite Hb, Hle.
Qed.

Lemma while_chunks_step fuel d b :
  _input_buffer d = Some b ->
  _input_chunk_size d <= SampleBuffer.len b ->
  while_chunks (S fuel) d =
  bind (_process_input_chunk
          (set_input_buffer
             d (Some (skipn (Z.to_nat (_input_chunk_size d)) b)))
          (firstn (Z.to_nat (_input_chunk_size d)) b))
       (while_chunks fuel).
Proof.
  intros Hb Hle. cbn [while_chunks]. rewrite Hb.
  rewrite (proj2 (Z.leb_le _ _) Hle), (read_ok _ _ Hle), bind_ret_l.
  reflexivity.
Qed.

(** What a loop that ends has done. *)
Lemma while_chunks_inv fuel : forall d t d',
  while_chunks fuel d = (t, Returns d') ->
  config d' = config d /\
  exists b b',
    _input_buffer d = Some b /\ _input_buffer d' = Some b' /\
    SampleBuffer.len b' < _input_chunk_size d /\
    _input_chunk_start_index d' + SampleBuffer.len b' =
    _input_chunk_start_index d + SampleBuffer.len b /\
    exists k, 0 <= k /\
      _input_chunk_start_index d' =
      _input_chunk_start_index d + k * _input_chunk_size d.
Proof.
  induction fuel as [| fuel IH]; intros d t d' H;
    (destruct (_input_buffer d) as [b |] eqn:Hb;
     [| rewrite (while_chunks_none _ _ Hb) in H; discriminate]);
    (destruct (Z_le_gt_dec (_input_chunk_size d) (SampleBuffer.len b))
      as [Hle | Hgt];
     [| rewrite (while_chunks_stop _ _ _ Hb) in H by lia;
        inversion H; subst; split; [reflexivity |];
        exists b, b; repeat split; try assumption; try lia;
        exists 0; lia]).
  - rewrite (while_chunks_out_of_fuel _ _ Hb Hle) in H. discriminate.
  - rewrite (while_chunks_step _ _ _ Hb Hle) in H.
    apply bind_returns_inv in H as (t1 & d1 & t2 & Hp & Hw & _).
    apply process_chunk_inv in Hp as (w & ->).
    apply IH in Hw as (Hc & b1 & b' & Hb1 & Hb' & Hlt & Hsum & k & Hk & Hidx).
    simpl in Hb1, Hlt, Hsum, Hidx. inversion Hb1; subst b1; clear Hb1.
    split; [rewrite Hc; reflexivity |].
    exists b, b'. unfold SampleBuffer.len in *.
    rewrite length_firstn in Hsum, Hidx. rewrite length_skipn in Hsum.
    repeat split; try assumption; try lia.
    exists (k + 1). split; [lia |]. rewrite Hidx.
    replace (Z.of_nat (Nat.min (Z.to_nat (_input_chunk_size d))
                               (List.length b)))
      with (_input_chunk_size d) by lia.
    ring.
Qed.

Lemma config_chunk_size d d' :
  config d' = config d -> _input_chunk_size d' = _input_chunk_size d.
Proof. intros H. apply (f_equal _input_chunk_size) in H. exact H. Qed.


(** With a positive chunk size the loop needs no more iterations than
    there are buffered samples: more fuel changes nothing. *)
Lemma while_chunks_fuel f1 : forall f2 d,
  0 < _input_chunk_size d ->
  (buffered d <= f1)%nat -> (buffered d <= f2)%nat ->
  while_chunks f1 d = while_chunks f2 d.
Proof.
  induction f1 as [| f1 IH]; intros f2 d Hpos H1 H2;
    (destruct (_input_buffer d) as [b |] eqn:Hb;
     [| now rewrite !(while_chunks_none _ _ Hb)]);
    (destruct (Z_le_gt_dec (_input_chunk_size d) (SampleBuffer.len b))
      as [Hle | Hgt];
     [| now rewrite !(while_chunks_stop _ _ _ Hb) by lia]);
    unfold buffered in H1, H2; rewrite Hb in H1, H2;
    unfold SampleBuffer.len in Hle; [lia |].
  destruct f2 as [| f2]; [lia |].
  rewrite !(while_chunks_step _ _ _ Hb) by exact Hle.
  apply bind_ext. intros d1 Hd1. apply snd_returns in Hd1.
  apply process_chunk_inv in Hd1 as (w & ->).
  apply IH; [exact Hpos | unfold buffered; simpl; rewrite length_skipn; lia ..].
Qed.

Lemma while_chunks_not_diverges fuel : forall d,
  0 < _input_chunk_size d -> (buffered d <= fuel)%nat ->
  snd (while_chunks fuel d) <> Diverges.
Proof.
  induction fuel as [| fuel IH]; intros d Hpos Hf;
    (destruct (_input_buffer d) as [b |] eqn:Hb;
     [| rewrite (while_chunks_none _ _ Hb); discriminate]);
    (destruct (Z_le_gt_dec (_input_chunk_size d) (SampleBuffer.len b))
      as [Hle | Hgt];
     [| rewrite (while_chunks_stop _ _ _ Hb) by lia; discriminate]);
    unfold buffered in Hf; rewrite Hb in Hf;
    unfold SampleBuffer.len in Hle; [lia |].
  rewrite (while_chunks_step _ _ _ Hb) by exact Hle.
  apply bind_not_diverges; [apply process_chunk_not_diverges |].
  intros d1 Hd1. apply snd_returns in Hd1.
  apply process_chunk_inv in Hd1 as (w & ->).
  apply IH; [exact Hpos |]. unfold buffered; simpl. rewrite length_skipn. lia.
Qed.

(** With a well-formed hop and record size the loop returns. *)
Lemma while_chunks_returns fuel : forall d b,
  0 < _input_chunk_size d ->
  0 < _hop_size d <= _classifier_waveform_length d ->
  full_chunks_succeed d ->
  _input_buffer d = Some b -> (List.length b <= fuel)%nat ->
  exists t d', while_chunks fuel d = (t, Returns d').
Proof.
  induction fuel as [| fuel IH]; intros d b Hpos Hw Hfull Hb Hf;
    (destruct (Z_le_gt_dec (_input_chunk_size d) (SampleBuffer.len b))
      as [Hle | Hgt];
     [| rewrite (while_chunks_stop _ _ _ Hb) by lia;
        eexists _, _; reflexivity]);
    unfold SampleBuffer.len in Hle; [lia |].
  rewrite (while_chunks_step _ _ _ Hb) by exact Hle.
  destruct (process_chunk_wellformed
              (set_input_buffer
                 d (Some (skipn (Z.to_nat (_input_chunk_size d)) b)))
              (firstn (Z.to_nat (_input_chunk_size d)) b) Hw)
    as (t1 & w & Hp).
  { apply (Hfull (firstn (Z.to_nat (_input_chunk_size d)) b)).
    rewrite length_firstn. lia. }
  rewrite Hp.
  destruct (IH (after_chunk
                  (set_input_buffer
                     d (Some (skipn (Z.to_nat (_input_chunk_size d)) b)))
                  w
                  (Z.of_nat
                     (List.length
                        (firstn (Z.to_nat (_input_chunk_size d)) b))))
               (skipn (Z.to_nat (_input_chunk_size d)) b))
    as (t2 & d' & Hw2); try assumption; try reflexivity.
  { rewrite length_skipn. lia. }
  rewrite bind_returns, Hw2. simpl. eauto.
Qed.

(** What a loop that ends has left in the buffer is the end of what the
    buffer held. *)
Lemma while_chunks_suffix fuel : forall d t d',
  while_chunks fuel d = (t, Returns d') ->
  exists consumed, buffer_of d = consumed ++ buffer_of d'.
Proof.
  induction fuel as [| fuel IH]; intros d t d' H;
    (destruct (_input_buffer d) as [b |] eqn:Hb;
     [| rewrite (while_chunks_none _ _ Hb) in H; discriminate]);
    (destruct (Z_le_gt_dec (_input_chunk_size d) (SampleBuffer.len b))
      as [Hle | Hgt];
     [| rewrite (while_chunks_stop _ _ _ Hb) in H by lia;
        inversion H; subst; exists []; reflexivity]).
  - rewrite (while_chunks_out_of_fuel _ _ Hb Hle) in H. discriminate.
  - rewrite (while_chunks_step _ _ _ Hb Hle) in H.
    apply bind_returns_inv in H as (t1 & d1 & t2 & Hp & Hw & _).
    apply process_chunk_inv in Hp as (w & ->).
    apply IH in Hw as (consumed & Hc).
    unfold buffer_of in Hc at 1. simpl in Hc.
    exists (firstn (Z.to_nat (_input_chunk_size d)) b ++ consumed).
    unfold buffer_of at 1. rewrite Hb, <- app_assoc, <- Hc.
    symmetry. apply firstn_skipn.
Qed.

End LoopFacts.

(** ** Facts about [detect] and sessions *)

Section SessionFacts.
Context {sample : Type} `{C : Collaborators sample}.
Implicit Types (d : Detector sample) (b c s : list sample).

Lemma set_input_buffer_twice d x y :
  set_input_buffer (set_input_buffer d x) y = set_input_buffer d y.
Proof. reflexivity. Qed.

(** Samples appended behind the buffer do not change the chunks the loop
    cuts from the front: the loop over [b ++ s] is the loop over [b],
    then the loop over what it left followed by [s]. *)
Lemma while_chunks_app f : forall d b s f',
  0 < _input_chunk_size d ->
  (List.length b <= f)%nat -> (List.length (b ++ s) <= f')%nat ->
  while_chunks f' (set_input_buffer d (Some (b ++ s))) =
  bind (while_chunks f (set_input_buffer d (Some b)))
       (fun d1 =>
          while_chunks f' (set_input_buffer d1 (Some (buffer_of d1 ++ s)))).
Proof.
  induction f as [| f IH]; intros d b s f' Hpos Hf Hf';
    (destruct (Z_le_gt_dec (_input_chunk_size d) (SampleBuffer.len b))
      as [Hle | Hgt];
     [| rewrite (while_chunks_stop
                   _ (set_input_buffer d (Some b)) b eq_refl
                   (proj1 (Z.gt_lt_iff _ _) Hgt));
        now rewrite bind_ret_l]);
    unfold SampleBuffer.len in Hle; [lia |].
  rewrite length_app in Hf'.
  destruct f' as [| f']; [lia |].
  rewrite (while_chunks_step
             f' (set_input_buffer d (Some (b ++ s))) (b ++ s) eq_refl)
    by (unfold SampleBuffer.len; rewrite length_app; simpl; lia).
  rewrite (while_chunks_step f (set_input_buffer d (Some b)) b eq_refl)
    by exact Hle.
  simpl _input_chunk_size.
  rewrite firstn_app, skipn_app.
  replace (Z.to_nat (_input_chunk_size d) - List.length b)%nat
    with 0%nat by lia.
  simpl firstn at 2. simpl skipn at 2. rewrite app_nil_r.
  rewrite !set_input_buffer_twice.
  rewrite (process_chunk_frame d _ (Some (skipn _ b ++ s))).
  rewrite (process_chunk_frame d _ (Some (skipn _ b))).
  rewrite !bind_assoc. apply bind_ext. intros d1 Hd1.
  rewrite !bind_ret_l. apply snd_returns in Hd1.
  apply process_chunk_inv in Hd1 as (w & ->).
  assert (Hlen : (List.length (skipn (Z.to_nat (_input_chunk_size d)) b)
                  <= f)%nat) by (rewrite length_skipn; lia).
  rewrite (IH (after_chunk d w _) _ s f' Hpos Hlen)
    by (rewrite length_app, length_skipn; lia).
  apply bind_ext. intros d2 Hd2. apply snd_returns in Hd2.
  apply while_chunks_inv in Hd2
    as (Hc & b0 & b2 & Hb0 & Hb2 & Hlt & Hsum & k & Hk & Hidx).
  simpl in Hb0, Hlt, Hsum, Hidx. inversion Hb0; subst b0; clear Hb0.
  unfold buffer_of. rewrite Hb2.
  unfold SampleBuffer.len in *. rewrite length_skipn in *.
  apply while_chunks_fuel.
  - simpl. rewrite (config_chunk_size _ _ Hc). exact Hpos.
  - unfold buffered. simpl. rewrite length_app. nia.
  - unfold buffered. simpl. rewrite length_app. nia.
Qed.

Lemma detect_unfold d s :
  detect d s =
  while_chunks (S (List.length (buffer_of d ++ s)))
               (set_input_buffer d (Some (buffer_of d ++ s))).
Proof.
  unfold detect, _process_input_chunks.
  change (match _input_buffer d with
          | Some buffer => buffer
          | None => SampleBuffer.empty
          end) with (buffer_of d).
  unfold SampleBuffer.write.
  set (m := while_chunks _ _).
  replace (while_chunks _ _) with m by reflexivity.
  rewrite <- (bind_ret_r m) at 2. apply bind_ext. intros d1 Hd1.
  apply snd_returns in Hd1.
  apply while_chunks_inv in Hd1 as (_ & _ & b' & _ & Hb' & _).
  now rewrite Hb'.
Qed.

Lemma detect_inv d s t d' :
  detect d s = (t, Returns d') ->
  config d' = config d /\
  exists b',
    _input_buffer d' = Some b' /\
    SampleBuffer.len b' < _input_chunk_size d /\
    _input_chunk_start_index d' + SampleBuffer.len b' =
    _input_chunk_start_index d + SampleBuffer.len (buffer_of d ++ s) /\
    exists k, 0 <= k /\
      _input_chunk_start_index d' =
      _input_chunk_start_index d + k * _input_chunk_size d.
Proof.
  rewrite detect_unfold. intros H.
  apply while_chunks_inv in H
    as (Hc & b0 & b' & Hb0 & Hb' & Hlt & Hsum & Hk).
  simpl in Hb0. inversion Hb0; subst b0.
  split; [exact Hc |]. exists b'. auto.
Qed.

(** Two [detect] calls in a row are one call on the two arrays joined. *)
Lemma detect_detect d s1 s2 :
  0 < _input_chunk_size d ->
  bind (detect d s1) (fun d1 => detect d1 s2) = detect d (s1 ++ s2).
Proof.
  intros Hpos. rewrite (detect_unfold d (s1 ++ s2)), app_assoc.
  rewrite (while_chunks_app (S (List.length (buffer_of d ++ s1)))
                            d (buffer_of d ++ s1) s2 _ Hpos)
    by lia.
  rewrite <- detect_unfold. apply bind_ext. intros d1 Hd1.
  apply snd_returns in Hd1.
  apply detect_inv in Hd1 as (Hc & b' & Hb' & Hlt & Hsum & k & Hk & Hidx).
  assert (Hbo : buffer_of d1 = b') by (unfold buffer_of; now rewrite Hb').
  rewrite detect_unfold, Hbo.
  pose proof (config_chunk_size _ _ Hc) as Hcs.
  unfold SampleBuffer.len in *. rewrite length_app in Hsum.
  apply while_chunks_fuel; unfold buffered; simpl;
    rewrite ?length_app; nia.
Qed.

Lemma detect_all_concat : forall calls d,
  0 < _input_chunk_size d -> calls <> [] ->
  detect_all d calls = detect d (List.concat calls).
Proof.
  induction calls as [| s calls IH]; intros d Hpos Hne; [congruence |].
  destruct calls as [| s' calls].
  - simpl. now rewrite bind_ret_r, app_nil_r.
  - change (detect_all d (s :: s' :: calls))
      with (bind (detect d s) (fun d1 => detect_all d1 (s' :: calls))).
    change (List.concat (s :: s' :: calls)) with (s ++ List.concat (s' :: calls)).
    rewrite <- (detect_detect d s _ Hpos). apply bind_ext. intros d1 Hd1.
    apply snd_returns in Hd1. apply detect_inv in Hd1 as (Hc & _).
    apply IH; [| discriminate].
    rewrite (config_chunk_size _ _ Hc). exact Hpos.
Qed.

(** What a [detect] call that returns has consumed and left. *)
Lemma detect_consumed d s t d' :
  detect d s = (t, Returns d') ->
  0 < _input_chunk_size d /\
  _input_chunk_start_index d' =
  _input_chunk_start_index d
  + _input_chunk_size d
    * (SampleBuffer.len (buffer_of d ++ s) / _input_chunk_size d) /\
  _input_buffer d' =
  Some (skipn (Z.to_nat
                 (_input_chunk_size d
                  * (SampleBuffer.len (buffer_of d ++ s)
                     / _input_chunk_size d)))
              (buffer_of d ++ s)) /\
  SampleBuffer.len (buffer_of d') =
  SampleBuffer.len (buffer_of d ++ s) mod _input_chunk_size d.
Proof.
  intros H. pose proof H as Hinv.
  apply detect_inv in Hinv as (_ & b' & Hb' & Hlt & Hsum & k & Hk & Hidx).
  rewrite detect_unfold in H.
  apply while_chunks_suffix in H as (consumed & Hc).
  unfold buffer_of in Hc at 1. simpl in Hc.
  assert (Hbo : buffer_of d' = b') by (unfold buffer_of; now rewrite Hb').
  rewrite Hbo in *.
  set (n := _input_chunk_size d) in *.
  set (total := SampleBuffer.len (buffer_of d ++ s)) in *.
  assert (Hpos : 0 < n) by (unfold SampleBuffer.len in Hlt; lia).
  assert (Htotal : total = n * k + SampleBuffer.len b') by lia.
  assert (Hrange : 0 <= SampleBuffer.len b' < n)
    by (unfold SampleBuffer.len in *; lia).
  assert (Hq : total / n = k).
  { symmetry. apply (Z.div_unique_pos total n k (SampleBuffer.len b'));
      assumption. }
  assert (Hr : total mod n = SampleBuffer.len b').
  { symmetry. apply (Z.mod_unique_pos total n k (SampleBuffer.len b'));
      assumption. }
  rewrite Hq, Hr. repeat split; try assumption; [lia |].
  rewrite Hb'. f_equal.
  assert (Hlen : Z.to_nat (n * k) = List.length consumed).
  { unfold total, SampleBuffer.len in Htotal. rewrite Hc in Htotal.
    rewrite length_app in Htotal. unfold SampleBuffer.len in Htotal. lia. }
  rewrite Hc, Hlen, skipn_app, skipn_all, Nat.sub_diag. reflexivity.
Qed.

End SessionFacts.

(** ** Where clips can lie, and how calls end *)

Section BoundFacts.
Context {sample : Type} `{C : Collaborators sample}.
Implicit Types (d : Detector sample) (b c s : list sample).

Lemma clip_in_range_mono upto upto' e :
  upto <= upto' -> clip_in_range upto e -> clip_in_range upto' e.
Proof. destruct e; simpl; intros; auto. lia. Qed.

Lemma process_chunk_range d c e :
  In e (fst (_process_input_chunk d c)) ->
  clip_in_range
    (_input_chunk_start_index d + Z.of_nat (List.length c)) e.
Proof.
  destruct e as [s l th | | msg]; simpl; auto.
  apply process_chunk_bound.
Qed.

Lemma while_chunks_range fuel : forall d e,
  In e (fst (while_chunks fuel d)) -> clip_in_range (received d) e.
Proof.
  induction fuel as [| fuel IH]; intros d e H;
    (destruct (_input_buffer d) as [b |] eqn:Hb;
     [| rewrite (while_chunks_none _ _ Hb) in H; contradiction]);
    (destruct (Z_le_gt_dec (_input_chunk_size d) (SampleBuffer.len b))
      as [Hle | Hgt];
     [| rewrite (while_chunks_stop _ _ _ Hb) in H by lia; contradiction]).
  - rewrite (while_chunks_out_of_fuel _ _ Hb Hle) in H. contradiction.
  - rewrite (while_chunks_step _ _ _ Hb Hle) in H.
    assert (Hrec : received d =
                   _input_chunk_start_index d + Z.of_nat (List.length b))
      by (unfold received, buffer_of; now rewrite Hb).
    apply bind_events in H as [H | (d1 & Hd1 & H)].
    + apply process_chunk_range in H. simpl in H.
      eapply clip_in_range_mono; [| exact H].
      rewrite Hrec, length_firstn. lia.
    + apply snd_returns in Hd1.
      apply process_chunk_inv in Hd1 as (w & ->).
      apply IH in H. eapply clip_in_range_mono; [| exact H].
      rewrite Hrec. unfold received, buffer_of, SampleBuffer.len. simpl.
      rewrite length_firstn, length_skipn. lia.
Qed.

Lemma process_chunks_range d flag e :
  In e (fst (_process_input_chunks d flag)) ->
  clip_in_range (received d) e.
Proof.
  unfold _process_input_chunks. intros H.
  apply bind_events in H as [H | (d1 & Hd1 & H)];
    [now apply while_chunks_range in H |].
  apply snd_returns in Hd1.
  apply while_chunks_inv in Hd1
    as (_ & b & b' & Hb & Hb' & _ & Hsum & _).
  rewrite Hb' in H.
  destruct (flag && negb (SampleBuffer.len b' =? 0)); [| contradiction].
  simpl in H. apply process_chunk_range in H. simpl in H.
  eapply clip_in_range_mono; [| exact H].
  unfold received, buffer_of. rewrite Hb.
  unfold SampleBuffer.len in *. lia.
Qed.

Lemma received_detect d s t d' :
  detect d s = (t, Returns d') ->
  received d' = received d + Z.of_nat (List.length s).
Proof.
  intros H. apply detect_inv in H as (_ & b' & Hb' & _ & Hsum & _).
  unfold received, buffer_of at 1. rewrite Hb'.
  unfold SampleBuffer.len in *. rewrite length_app in Hsum. lia.
Qed.

Lemma detect_range d s e :
  In e (fst (detect d s)) ->
  clip_in_range (received d + Z.of_nat (List.length s)) e.
Proof.
  unfold detect. intros H. apply process_chunks_range in H.
  eapply clip_in_range_mono; [| exact H].
  unfold received, buffer_of, SampleBuffer.len, SampleBuffer.write. simpl.
  rewrite length_app.
  destruct (_input_buffer d); unfold SampleBuffer.empty; simpl; lia.
Qed.

Lemma complete_detection_range d e :
  In e (fst (complete_detection d)) -> clip_in_range (received d) e.
Proof.
  unfold complete_detection. intros H.
  apply bind_events in H as [H | (d1 & _ & H)];
    [now apply process_chunks_range in H |].
  apply bind_events in H as [[<- | []] | (? & _ & [])]. exact I.
Qed.

Lemma detect_all_range : forall calls d e,
  In e (fst (detect_all d calls)) ->
  clip_in_range
    (received d + Z.of_nat (List.length (List.concat calls))) e.
Proof.
  induction calls as [| s calls IH]; intros d e H; [contradiction |].
  simpl in H. simpl List.concat. rewrite length_app.
  apply bind_events in H as [H | (d1 & Hd1 & H)].
  - apply detect_range in H. eapply clip_in_range_mono; [| exact H]. lia.
  - apply snd_returns in Hd1. apply received_detect in Hd1.
    apply IH in H. eapply clip_in_range_mono; [| exact H]. lia.
Qed.

Lemma received_detect_all : forall calls d t d',
  detect_all d calls = (t, Returns d') ->
  received d' = received d + Z.of_nat (List.length (List.concat calls)).
Proof.
  induction calls as [| s calls IH]; intros d t d' H.
  - inversion H; subst. simpl. lia.
  - simpl in H. apply bind_returns_inv in H as (t1 & d1 & t2 & H1 & H2 & _).
    apply received_detect in H1. apply IH in H2.
    simpl List.concat. rewrite length_app. lia.
Qed.

Lemma session_range d calls e :
  In e (fst (session d calls)) ->
  clip_in_range
    (received d + Z.of_nat (List.length (List.concat calls))) e.
Proof.
  unfold session. intros H.
  apply bind_events in H as [H | (d1 & Hd1 & H)];
    [now apply detect_all_range in H |].
  apply snd_returns in Hd1. apply received_detect_all in Hd1.
  apply complete_detection_range in H. now rewrite Hd1 in H.
Qed.

(** *** Ends of calls *)

Lemma detect_not_diverges d s :
  0 < _input_chunk_size d -> snd (detect d s) <> Diverges.
Proof.
  intros Hpos. rewrite detect_unfold.
  apply while_chunks_not_diverges; [exact Hpos |].
  unfold buffered. simpl. lia.
Qed.

Lemma detect_returns d s :
  0 < _input_chunk_size d ->
  0 < _hop_size d <= _classifier_waveform_length d ->
  full_chunks_succeed d ->
  exists t d', detect d s = (t, Returns d').
Proof.
  intros Hpos Hw Hfull. rewrite detect_unfold.
  apply (while_chunks_returns
           _ (set_input_buffer d (Some (buffer_of d ++ s)))
           (buffer_of d ++ s));
    [exact Hpos | exact Hw | exact Hfull | reflexivity | lia].
Qed.

Lemma complete_detection_not_diverges d :
  0 < _input_chunk_size d -> snd (complete_detection d) <> Diverges.
Proof.
  intros Hpos. unfold complete_detection, _process_input_chunks.
  apply bind_not_diverges; [| intros; apply bind_not_diverges; discriminate].
  apply bind_not_diverges;
    [apply while_chunks_not_diverges; [exact Hpos | lia] |].
  intros d1 _. destruct (_input_buffer d1); [| discriminate].
  destruct (_ && _); [| discriminate].
  apply process_chunk_not_diverges.
Qed.

Lemma detect_all_not_diverges : forall calls d,
  0 < _input_chunk_size d -> snd (detect_all d calls) <> Diverges.
Proof.
  induction calls as [| s calls IH]; intros d Hpos; [discriminate |].
  simpl. apply bind_not_diverges; [now apply detect_not_diverges |].
  intros d1 Hd1. apply snd_returns in Hd1.
  apply detect_inv in Hd1 as (Hc & _).
  apply IH. now rewrite (config_chunk_size _ _ Hc).
Qed.

Lemma config_detect_all : forall calls d t d',
  detect_all d calls = (t, Returns d') -> config d' = config d.
Proof.
  induction calls as [| s calls IH]; intros d t d' H.
  - now inversion H.
  - simpl in H. apply bind_returns_inv in H as (t1 & d1 & t2 & H1 & H2 & _).
    apply detect_inv in H1 as (Hc & _). apply IH in H2. congruence.
Qed.

Lemma session_not_diverges d calls :
  0 < _input_chunk_size d -> snd (session d calls) <> Diverges.
Proof.
  intros Hpos. unfold session.
  apply bind_not_diverges; [now apply detect_all_not_diverges |].
  intros d1 Hd1. apply snd_returns in Hd1. apply config_detect_all in Hd1.
  apply complete_detection_not_diverges.
  now rewrite (config_chunk_size _ _ Hd1).
Qed.

(** What [complete_detection] leaves when it returns: an empty buffer,
    every sample consumed. *)
Lemma complete_detection_inv d t d' :
  complete_detection d = (t, Returns d') ->
  config d' = config d /\ _input_buffer d' = Some [] /\
  _input_chunk_start_index d' = received d.
Proof.
  unfold complete_detection. intros H.
  apply bind_returns_inv in H as (t1 & d1 & t2 & H1 & H2 & ->).
  apply bind_returns_inv in H2 as (t3 & [] & t4 & H3 & H4 & ->).
  inversion H4; subst t4 d'. clear H3 H4.
  unfold _process_input_chunks in H1.
  apply bind_returns_inv in H1 as (ta & da & tb & Ha & Hb & ->).
  apply while_chunks_inv in Ha
    as (Hc & b & b' & Hbd & Hb' & Hlt & Hsum & _).
  rewrite Hb' in Hb.
  assert (Hrec : received d =
                 _input_chunk_start_index d + SampleBuffer.len b)
    by (unfold received, buffer_of; now rewrite Hbd).
  rewrite Hrec. simpl in Hb.
  destruct (SampleBuffer.len b' =? 0) eqn:E; simpl in Hb.
  - inversion Hb; subst tb d1. apply Z.eqb_eq in E.
    destruct b' as [| x b']; [| unfold SampleBuffer.len in E; simpl in E; lia].
    unfold SampleBuffer.len in *. simpl in Hsum.
    repeat split; [exact Hc | exact Hb' | lia].
  - apply process_chunk_inv in Hb as (w & ->).
    unfold SampleBuffer.len in *. simpl.
    repeat split; [rewrite <- Hc; reflexivity | lia].
Qed.

End BoundFacts.

(** ** Errors *)

Section ErrorFacts.
Context {sample : Type} `{C : Collaborators sample}.
Implicit Types (d : Detector sample) (b c s : list sample).


Lemma malformed_windowing_dec (r h : Z) :
  {malformed_windowing r h} + {0 < h <= r}.
Proof.
  unfold malformed_windowing.
  destruct (Z_le_gt_dec r 0); [left; lia |].
  destruct (Z_le_gt_dec h 0); [left; lia |].
  destruct (Z_le_gt_dec h r); [right; lia | left; lia].
Qed.









End ErrorFacts.

(** * Properties *)

Section Properties.
Context {sample : Type} `{C : Collaborators sample}.
Implicit Types (d : Detector sample) (b c s : list sample).

(** ** Windowing *)

(** C4. The windowing step raises (a [ValueError], and nothing else)
    exactly when the record size is not positive, the hop size is not
    positive, or the hop size exceeds the record size. Otherwise, on [n]
    samples, it returns 0 windows if [n < record_size] and
    [(n - (record_size - hop_size)) // hop_size] windows if not: that is
    what [_get_num_analysis_records] returns, and the number of records
    [_get_analysis_records] builds. *)
Theorem windowing_contract (samples : list sample) (n record_size hop_size : Z) :
  match snd (_get_num_analysis_records n record_size hop_size) with
  | Returns k =>
      ~ malformed_windowing record_size hop_size /\
      k = num_windows n record_size hop_size
  | Raises (ValueError _) => malformed_windowing record_size hop_size
  | _ => False
  end /\
  match snd (_get_analysis_records samples record_size hop_size) with
  | Returns w =>
      ~ malformed_windowing record_size hop_size /\
      Z.of_nat (List.length w) =
      num_windows (Z.of_nat (List.length samples)) record_size hop_size
  | Raises (ValueError _) => malformed_windowing record_size hop_size
  | _ => False
  end.
Proof.
  unfold malformed_windowing, num_windows.
  destruct (Z_le_gt_dec record_size 0) as [Hr | Hr];
    [| destruct (Z_le_gt_dec hop_size 0) as [Hh | Hh];
       [| destruct (Z_le_gt_dec hop_size record_size) as [Hhr | Hhr]]].
  1, 2, 4:
    unfold _get_analysis_records;
    split;
    [ destruct (num_records_malformed n record_size hop_size) as (m & ->)
    | destruct (num_records_malformed
                  (Z.of_nat (List.length samples)) record_size hop_size)
        as (m & ->) ];
    simpl; lia.
  assert (Hw : 0 < hop_size <= record_size) by lia.
  split.
  - rewrite (num_records_wellformed _ _ _ Hw). simpl. split; [lia | auto].
  - destruct (records_unfold samples _ _ Hw) as (w & -> & Hlen).
    simpl. split; [lia |]. rewrite Hlen.
    apply Z2Nat.id. now apply num_records_nonneg.
Qed.

(** ** Clip validation *)

Lemma notify_clip_outcome d input_length th peak :
  exists e,
    notify_clip d (_input_chunk_start_index d + _clip_start_offset d)
                input_length th (peak * _hop_size d) = ([e], Returns tt) /\
    outcome_of_peak d input_length th peak e.
Proof.
  unfold notify_clip, outcome_of_peak, rejected, clip_end_index.
  fold (clip_start_index d peak).
  destruct (clip_start_index d peak <? 0) eqn:E1.
  { apply Z.ltb_lt in E1. eexists. split; [reflexivity |]. left. eauto. }
  apply Z.ltb_ge in E1.
  destruct (_ >? _) eqn:E2.
  { rewrite Z.gtb_ltb in E2. apply Z.ltb_lt in E2.
    eexists. split; [reflexivity |]. left. split; [lia | eauto]. }
  rewrite Z.gtb_ltb in E2. apply Z.ltb_ge in E2.
  eexists. split; [reflexivity |]. right. split; [lia | reflexivity].
Qed.

(** C3. [_notify_listener_of_clips] answers every peak with exactly one
    event, in the order of the peaks: a warning, and no clip, if and only
    if the clip would start before index 0 or end after the end of the
    current chunk; the clip otherwise. It always returns: a rejection
    raises nothing and the peaks after it are still handled. *)
Theorem rejection_contract d (peak_indices : list Z) (input_length : Z)
        (threshold : Q) :
  snd (_notify_listener_of_clips d peak_indices input_length threshold)
  = Returns tt /\
  Forall2 (outcome_of_peak d input_length threshold)
          peak_indices
          (fst (_notify_listener_of_clips
                  d peak_indices input_length threshold)).
Proof.
  split; [apply notify_returns |].
  unfold _notify_listener_of_clips.
  induction peak_indices as [| p peaks IH]; simpl; [constructor |].
  destruct (notify_clip_outcome d input_length threshold p)
    as (e & He & Ho).
  rewrite He. rewrite bind_returns. simpl. constructor; assumption.
Qed.

(** C2. Every clip handed to [process_clip] starts at index 0 or later
    and ends no later than the end of the chunk being processed, whatever
    the samples, the collaborators and the thresholds. Over a session it
    therefore never reaches beyond the samples passed to [detect] so
    far. *)
Theorem clip_within_received :
  (forall d c start len th,
      In (ProcessClip start len th) (fst (_process_input_chunk d c)) ->
      0 <= start /\
      start + len <=
      _input_chunk_start_index d + Z.of_nat (List.length c)) /\
  (forall d calls start len th,
      In (ProcessClip start len th) (fst (session d calls)) ->
      0 <= start /\
      start + len <=
      received d + Z.of_nat (List.length (List.concat calls))).
Proof.
  split.
  - intros d c. apply process_chunk_bound.
  - intros d calls start len th H. now apply session_range in H.
Qed.

(** ** The buffer after [detect] *)

(** C10. When [detect] returns it has consumed every complete chunk
    available and nothing else: the buffer holds what follows the whole
    chunks of the samples buffered and written, fewer samples than one
    chunk, and the chunk start index has advanced by the length of those
    chunks. And [detect] does return when the chunk size is positive, the
    hop and record size are well formed, and the resampler and the scorer
    return for the chunks of the configured size. *)
Theorem detect_leaves_less_than_a_chunk d s :
  (forall t d',
      detect d s = (t, Returns d') ->
      exists b',
        _input_buffer d' = Some b' /\
        SampleBuffer.len b' < _input_chunk_size d' /\
        b' = skipn (Z.to_nat
                      (_input_chunk_size d
                       * (SampleBuffer.len (buffer_of d ++ s)
                          / _input_chunk_size d)))
                   (buffer_of d ++ s) /\
        _input_chunk_start_index d' =
        _input_chunk_start_index d
        + _input_chunk_size d
          * (SampleBuffer.len (buffer_of d ++ s) / _input_chunk_size d)) /\
  (0 < _input_chunk_size d ->
   0 < _hop_size d <= _classifier_waveform_length d ->
   full_chunks_succeed d ->
   exists t d', detect d s = (t, Returns d')).
Proof.
  split; [| apply detect_returns].
  intros t d' H. pose proof (detect_consumed _ _ _ _ H) as (_ & Hidx & Hb & _).
  apply detect_inv in H as (Hc & b' & Hb' & Hlt & _).
  exists b'. repeat split; [exact Hb' | | congruence | exact Hidx].
  now rewrite (config_chunk_size _ _ Hc).
Qed.

End Properties.

(** ** Sessions *)

Section Sessions.
Context {sample : Type} `{C : Collaborators sample}.
Implicit Types (d : Detector sample) (b c s : list sample).

Lemma session_nonempty d calls :
  0 < _input_chunk_size d -> calls <> [] ->
  session d calls = bind (detect d (List.concat calls)) complete_detection.
Proof.
  intros Hpos Hne. unfold session. now rewrite detect_all_concat.
Qed.

Lemma complete_detection_none d :
  _input_buffer d = None ->
  complete_detection d =
  raise (TypeError "object of type 'NoneType' has no len()").
Proof.
  intros H. unfold complete_detection, _process_input_chunks.
  now rewrite (while_chunks_none _ _ H).
Qed.

Lemma complete_detection_empty d :
  0 < _input_chunk_size d -> _input_buffer d = Some [] ->
  complete_detection d = ([CompleteProcessing], Returns d).
Proof.
  intros Hpos H. unfold complete_detection, _process_input_chunks.
  rewrite (while_chunks_stop _ d [] H) by (unfold SampleBuffer.len; simpl; lia).
  rewrite bind_ret_l, H. reflexivity.
Qed.

Lemma detect_nothing_fresh d :
  0 < _input_chunk_size d -> _input_buffer d = None ->
  detect d [] = ret (set_input_buffer d (Some [])).
Proof.
  intros Hpos H. rewrite detect_unfold. unfold buffer_of. rewrite H. simpl app.
  apply (while_chunks_stop _ _ []); [reflexivity |].
  unfold SampleBuffer.len. simpl. lia.
Qed.

Lemma session_fresh_nothing d calls :
  0 < _input_chunk_size d -> _input_buffer d = None ->
  List.concat calls = [] ->
  emitted_clips (session d calls) = [].
Proof.
  intros Hpos Hnone Hcat. destruct calls as [| s calls].
  - unfold session. simpl detect_all. rewrite bind_ret_l.
    now rewrite (complete_detection_none _ Hnone).
  - rewrite session_nonempty by (assumption || discriminate).
    rewrite Hcat, (detect_nothing_fresh _ Hpos Hnone), bind_ret_l.
    now rewrite complete_detection_empty.
Qed.

(** C1. Fragmentation invariance. However a sample sequence is cut into
    the arrays of successive [detect] calls on a new detector, the session
    ([detect] on each, then [complete_detection]) hands the listener the
    same clips, in the same order and so as a multiset. No condition on
    where the cuts fall is needed: the chunks are cut from the joined
    input. Sessions of at least one [detect] call agree on everything they
    do, and no session loops. *)
Theorem fragmentation_invariance d (calls1 calls2 : list (list sample)) :
  _input_buffer d = None ->
  0 < _input_chunk_size d ->
  List.concat calls1 = List.concat calls2 ->
  emitted_clips (session d calls1) = emitted_clips (session d calls2) /\
  Permutation (emitted_clips (session d calls1))
              (emitted_clips (session d calls2)) /\
  (calls1 <> [] -> calls2 <> [] -> session d calls1 = session d calls2) /\
  snd (session d calls1) <> Diverges /\
  snd (session d calls2) <> Diverges.
Proof.
  intros Hnone Hpos Hcat.
  assert (Hfull : calls1 <> [] -> calls2 <> [] ->
                  session d calls1 = session d calls2).
  { intros H1 H2. rewrite !session_nonempty by assumption. now rewrite Hcat. }
  assert (Hclips : emitted_clips (session d calls1) =
                   emitted_clips (session d calls2)).
  { destruct calls1 as [| s1 calls1].
    - simpl in Hcat. symmetry in Hcat.
      rewrite (session_fresh_nothing d calls2 Hpos Hnone Hcat).
      now apply session_fresh_nothing.
    - destruct calls2 as [| s2 calls2].
      + simpl in Hcat.
        rewrite (session_fresh_nothing d (s1 :: calls1) Hpos Hnone Hcat).
        symmetry. now apply session_fresh_nothing.
      + rewrite Hfull; [reflexivity | discriminate | discriminate]. }
  repeat split; try assumption.
  - rewrite Hclips. apply Permutation_refl.
  - now apply session_not_diverges.
  - now apply session_not_diverges.
Qed.

(** ** Short input *)







(** ** The chunk start index *)

(** C6, amended. Across a [detect] call that returns, the chunk start
    index never decreases, and it advances by exactly the number of
    samples the call consumed from the buffer: a whole number of chunks,
    which is the number of samples buffered before the call plus the
    number written by it, less the number left in the buffer. *)
Theorem chunk_start_index_advance d s t d' :
  detect d s = (t, Returns d') ->
  _input_chunk_start_index d <= _input_chunk_start_index d' /\
  _input_chunk_start_index d' - _input_chunk_start_index d =
  SampleBuffer.len (buffer_of d) + Z.of_nat (List.length s)
  - SampleBuffer.len (buffer_of d') /\
  exists k, 0 <= k /\
    _input_chunk_start_index d' =
    _input_chunk_start_index d + k * _input_chunk_size d.
Proof.
  intros H. pose proof (received_detect _ _ _ _ H) as Hrec.
  apply detect_inv in H as (_ & b' & Hb' & Hlt & _ & k & Hk & Hidx).
  unfold received in Hrec. unfold SampleBuffer.len in *.
  repeat split; [nia | lia | eauto].
Qed.

(** ** Detecting malformed settings *)

(** C7, amended. Construction checks none of the settings: whenever the
    classifier settings and the estimator of the clip type load,
    [__init__] returns a detector, its record and hop size whatever the
    conversion of the durations gives; it raises only what the two loaders
    raise. A record size that is not positive, a hop size that is not
    positive or a hop size above the record size shows at run time: [detect]
    raises as soon as the buffer holds a chunk, and [complete_detection]
    when samples are left, before any call on the listener; the exception
    is the [ValueError] of the windowing step, unless the resampler, which
    is called first, raises on that chunk. *)
Theorem malformed_windowing_shows_at_run_time :
  (forall settings input_sample_rate extra_thresholds,
      match _load_classifier_settings (clip_type settings),
            _create_estimator (clip_type settings) with
      | inr cs, inr _ =>
          exists d : Detector sample,
            __init__ settings input_sample_rate extra_thresholds
            = ([], Returns d) /\
            _classifier_waveform_length d =
            seconds_to_frames
              (waveform_duration cs) (waveform_sample_rate cs) /\
            _hop_size d =
            seconds_to_frames
              (hop_size settings / 100 * waveform_duration cs)
              (waveform_sample_rate cs)
      | inl e, _ | inr _, inl e =>
          __init__ settings input_sample_rate extra_thresholds
          = ([], Raises e)
      end) /\
  (forall d s,
      malformed_windowing (_classifier_waveform_length d) (_hop_size d) ->
      _input_chunk_size d <= SampleBuffer.len (buffer_of d ++ s) ->
      exists e,
        detect d s = ([], Raises e) /\
        malformed_chunk_error d (first_chunk d (buffer_of d ++ s)) e) /\
  (forall d b,
      malformed_windowing (_classifier_waveform_length d) (_hop_size d) ->
      _input_buffer d = Some b -> b <> [] ->
      exists e,
        complete_detection d = ([], Raises e) /\
        malformed_chunk_error d (first_chunk d b) e).
Proof.
  split; [| split].
  - intros. unfold __init__.
    destruct (_load_classifier_settings (clip_type settings)) as [e | cs];
      [reflexivity |].
    destruct (_create_estimator (clip_type settings)) as [e | est];
      [reflexivity |].
    eexists. repeat split.
  - intros d s Hbad Hle. rewrite detect_unfold.
    rewrite (while_chunks_step
               _ (set_input_buffer d (Some (buffer_of d ++ s)))
               (buffer_of d ++ s) eq_refl)
      by exact Hle.
    unfold first_chunk. apply Z.leb_le in Hle. rewrite Hle.
    match goal with
    | |- context [_process_input_chunk ?x ?y] =>
        destruct (process_chunk_malformed x y Hbad) as (e & -> & He)
    end.
    exists e. split; [reflexivity | exact He].
  - intros d b Hbad Hb Hne.
    unfold complete_detection, _process_input_chunks, first_chunk.
    unfold buffered. rewrite Hb.
    destruct (Z_le_gt_dec (_input_chunk_size d) (SampleBuffer.len b))
      as [Hle | Hgt].
    + rewrite (while_chunks_step _ _ _ Hb Hle).
      apply Z.leb_le in Hle. rewrite Hle.
      match goal with
      | |- context [_process_input_chunk ?x ?y] =>
          destruct (process_chunk_malformed x y Hbad) as (e & -> & He)
      end.
      exists e. split; [reflexivity | exact He].
    + rewrite (while_chunks_stop _ _ _ Hb) by lia.
      replace (_input_chunk_size d <=? SampleBuffer.len b) with false
        by (symmetry; apply Z.leb_gt; lia).
      rewrite bind_ret_l, Hb.
      replace (SampleBuffer.len b =? 0) with false
        by (symmetry; apply Z.eqb_neq; unfold SampleBuffer.len;
            destruct b; [congruence | simpl; lia]).
      simpl andb. cbv iota. unfold SampleBuffer.read_all.
      match goal with
      | |- context [_process_input_chunk ?x ?y] =>
          destruct (process_chunk_malformed x y Hbad) as (e & -> & He)
      end.
      exists e. split; [reflexivity | exact He].
Qed.

(** ** After completion *)


End Sessions.

(** ** Separation of the clips *)

Section Separation.
Context {sample : Type} `{C : Collaborators sample}.
Implicit Types (d : Detector sample).







End Separation.

(** * The theorems on worked inputs *)

Import Example.

Example windows_of_25_samples :
  _get_num_analysis_records 25 10 5 = ret 4 /\
  _get_num_analysis_records 9 10 5 = ret 0 /\
  _get_analysis_records [1; 2; 3; 4; 5; 6; 7] 4 2
  = ret [[1; 2; 3; 4]; [3; 4; 5; 6]].
Proof. repeat split. Qed.

Example windows_malformed :
  _get_num_analysis_records 25 0 5
  = raise (ValueError "Record size must be positive.") /\
  _get_num_analysis_records 25 10 0
  = raise (ValueError "Hop size must be positive.") /\
  _get_num_analysis_records 25 10 11
  = raise (ValueError "Hop size must not exceed record size.").
Proof. repeat split. Qed.

Example new_detector_init :
  __init__ (C := collaborators) settings 1 None = ([], Returns new_detector).
Proof. reflexivity. Qed.

Example session_recording :
  fst (session (C := collaborators) new_detector [recording]) =
  [ProcessClip 3 4 (1 # 2); ProcessClip 17 4 (1 # 2); CompleteProcessing].
Proof. reflexivity. Qed.

Example session_recording_in_three :
  fst (session (C := collaborators) new_detector recording_in_three) =
  [ProcessClip 3 4 (1 # 2); ProcessClip 17 4 (1 # 2); CompleteProcessing].
Proof. reflexivity. Qed.

(** A peak too close to the start of the recording and one too close to
    the end of its chunk are turned down; the one between them is a clip. *)
Example rejections :
  _notify_listener_of_clips (C := collaborators) new_detector [0; 2; 5] 12 (1 # 2)
  = ([LogWarning "Rejected clip that started before beginning of recording.";
      ProcessClip 3 4 (1 # 2);
      LogWarning "Rejected clip that ended after end of recording chunk."],
     Returns tt).
Proof. reflexivity. Qed.

Example upsampling_detector_init :
  __init__ (C := upsampling) upsampling_settings 1 None
  = ([], Returns upsampling_detector).
Proof. reflexivity. Qed.

Example detect_recording_outcome :
  detect (C := collaborators) new_detector recording
  = (detect_recording_events, Returns detect_recording_state).
Proof. vm_compute. reflexivity. Qed.

Example session_in_three_outcome :
  session (C := collaborators) new_detector recording_in_three
  = (session_in_three_events, Returns session_in_three_state).
Proof. vm_compute. reflexivity. Qed.

Example three_samples_outcome :
  complete_detection (C := collaborators) three_samples_left
  = ([CompleteProcessing], Returns three_samples_done).
Proof. vm_compute. reflexivity. Qed.

Example downsampling_detector_init :
  __init__ (C := collaborators) settings 2 None
  = ([], Returns downsampling_detector).
Proof. reflexivity. Qed.

Example detector_of_changes_init :
  __init__ (C := marking_changes) settings_for_changes 1 None
  = ([], Returns detector_of_changes).
Proof. reflexivity. Qed.

Example unknown_type_init :
  __init__ (sample := Z) (C := collaborators) settings_of_unknown_type 1 None
  = ([], Raises (OSError "No such file or directory")).
Proof. reflexivity. Qed.

(** One sample at 2 Hz cannot be resampled to 1 Hz: the detector fed at
    2 Hz does not keep short chunks short, it fails on them. *)
Example downsampling_fails_on_one_sample :
  to_classifier_rate (C := collaborators) downsampling_detector [5]
  = inl (ValueError "Input signal is too small to resample.") /\
  ~ stays_short (C := collaborators) downsampling_detector.
Proof.
  split; [reflexivity |].
  intros H. destruct (H [5]) as (c' & Hc' & _); [simpl; lia |].
  discriminate.
Qed.



Lemma new_detector_full_chunks :
  full_chunks_succeed (C := collaborators) new_detector.
Proof.
  intros c _. exists c. split; [reflexivity |].
  intros t w _. eexists. reflexivity.
Qed.

(** ** The theorems at these inputs *)

Lemma fragmentation_invariance_witness :
  emitted_clips (session (C := collaborators) new_detector [recording]) =
  emitted_clips (session (C := collaborators) new_detector recording_in_three).
Proof.
  assert (H1 : _input_buffer new_detector = None) by reflexivity.
  assert (H2 : 0 < _input_chunk_size new_detector) by reflexivity.
  assert (H3 : List.concat [recording] = List.concat recording_in_three)
    by reflexivity.
  exact (proj1 (fragmentation_invariance
                  (C := collaborators) new_detector
                  [recording] recording_in_three H1 H2 H3)).
Defined.

Lemma clip_within_received_witness :
  0 <= 17 /\ 17 + 4 <= 33.
Proof.
  apply (proj2 (clip_within_received (C := collaborators))
               new_detector recording_in_three 17 4 (1 # 2)).
  vm_compute. right. left. reflexivity.
Defined.

Lemma detect_leaves_less_than_a_chunk_witness :
  (exists b',
      _input_buffer detect_recording_state = Some b' /\
      SampleBuffer.len b' < _input_chunk_size detect_recording_state /\
      b' = skipn (Z.to_nat
                    (_input_chunk_size new_detector
                     * (SampleBuffer.len (buffer_of new_detector ++ recording)
                        / _input_chunk_size new_detector)))
                 (buffer_of new_detector ++ recording) /\
      _input_chunk_start_index detect_recording_state =
      _input_chunk_start_index new_detector
      + _input_chunk_size new_detector
        * (SampleBuffer.len (buffer_of new_detector ++ recording)
           / _input_chunk_size new_detector)) /\
  exists t d',
    detect (C := collaborators) new_detector recording = (t, Returns d').
Proof.
  destruct (detect_leaves_less_than_a_chunk
              (C := collaborators) new_detector recording) as [H1 H2].
  split.
  - exact (H1 _ _ detect_recording_outcome).
  - apply H2.
    + reflexivity.
    + split; [reflexivity | discriminate].
    + exact new_detector_full_chunks.
Defined.



Lemma chunk_start_index_advance_witness :
  exists d',
    snd (detect (C := collaborators) new_detector recording) = Returns d' /\
    _input_chunk_start_index new_detector <= _input_chunk_start_index d' /\
    _input_chunk_start_index d' - _input_chunk_start_index new_detector =
    SampleBuffer.len (buffer_of new_detector)
    + Z.of_nat (List.length recording)
    - SampleBuffer.len (buffer_of d') /\
    exists k, 0 <= k /\
      _input_chunk_start_index d' =
      _input_chunk_start_index new_detector
      + k * _input_chunk_size new_detector.
Proof.
  eexists. split; [reflexivity |].
  apply (chunk_start_index_advance
           (C := collaborators) new_detector recording _ _ eq_refl).
Defined.

Lemma malformed_windowing_shows_at_run_time_witness :
  exists e,
    detect (C := collaborators) detector_without_hop (repeat 0 12)
    = ([], Raises e) /\
    malformed_chunk_error
      (C := collaborators) detector_without_hop
      (first_chunk
         detector_without_hop (buffer_of detector_without_hop ++ repeat 0 12))
      e.
Proof.
  apply (proj1 (proj2 (malformed_windowing_shows_at_run_time
                         (C := collaborators)))).
  - right. left. discriminate.
  - discriminate.
Defined.



(** ** Where the code departs from the specification *)


(** C6. With 11 samples buffered, a [detect] call that writes 1 sample
    completes a chunk of 12: the chunk start index advances by 12, not by
    the 1 sample written. *)
Lemma chunk_start_index_counterexample :
  exists d11 t d',
    detect (C := collaborators) new_detector (repeat 0 11) = ([], Returns d11)
    /\ detect (C := collaborators) d11 [0] = (t, Returns d')
    /\ _input_chunk_start_index d' - _input_chunk_start_index d11 = 12
    /\ Z.of_nat (List.length [0]) = 1.
Proof. eexists _, _, _. repeat split. Qed.

(** C7. A hop size of 0 is accepted by [__init__]; the first chunk makes
    [detect] raise. *)
Lemma malformed_settings_counterexample :
  __init__ (C := collaborators) settings_without_hop 1 None
  = ([], Returns detector_without_hop) /\
  detect (C := collaborators) detector_without_hop (repeat 0 12)
  = ([], Raises (ValueError "Hop size must be positive.")).
Proof. split; reflexivity. Qed.




(** * Further properties of the detector module *)

(** ** The thresholds *)

Lemma insert_threshold_In (x q : Q) (l : list Q) :
  In q (insert_threshold x l) -> q = x \/ In q l.
Proof.
  induction l as [| y l IH]; simpl.
  - intros [<- | []]. now left.
  - destruct (Qeq_bool x y); [now right |].
    destruct (Qle_bool x y).
    + intros [<- | H]; [now left | now right].
    + intros [<- | H]; [right; now left |].
      destruct (IH H) as [-> | Hl]; [now left | right; now right].
Qed.

Lemma insert_threshold_keeps (x q : Q) (l : list Q) :
  In q l -> In q (insert_threshold x l).
Proof.
  induction l as [| y l IH]; simpl; [contradiction |].
  destruct (Qeq_bool x y); [auto |].
  destruct (Qle_bool x y); simpl; [auto |].
  intros [<- | H]; auto.
Qed.

Lemma insert_threshold_has (x : Q) (l : list Q) :
  exists q, In q (insert_threshold x l) /\ (q == x)%Q.
Proof.
  induction l as [| y l IH]; simpl.
  - exists x. split; [now left | reflexivity].
  - destruct (Qeq_bool x y) eqn:E.
    + apply Qeq_bool_iff in E. exists y. split; [now left | now symmetry].
    + destruct (Qle_bool x y).
      * exists x. split; [now left | reflexivity].
      * destruct IH as (q & Hq & Heq). exists q. split; [now right | exact Heq].
Qed.

Lemma insert_threshold_sorted (x : Q) (l : list Q) :
  StronglySorted Qlt l -> StronglySorted Qlt (insert_threshold x l).
Proof.
  induction l as [| y l IH]; simpl; intros Hs.
  - constructor; constructor.
  - destruct (Qeq_bool x y) eqn:E; [exact Hs |].
    apply Qeq_bool_neq in E.
    inversion Hs as [| ? ? Hl Hy]; subst.
    destruct (Qle_bool x y) eqn:L.
    + apply Qle_bool_iff in L.
      assert (Hxy : (x < y)%Q).
      { destruct (Qle_lt_or_eq _ _ L) as [H | H]; [exact H | contradiction]. }
      constructor; [exact Hs |]. constructor; [exact Hxy |].
      rewrite Forall_forall in Hy |- *. intros z Hz.
      eapply Qlt_trans; [exact Hxy | now apply Hy].
    + assert (Hyx : (y < x)%Q).
      { apply Qnot_le_lt. intros H. apply Qle_bool_iff in H. congruence. }
      constructor; [now apply IH |].
      rewrite Forall_forall in Hy |- *. intros z Hz.
      apply insert_threshold_In in Hz as [-> | Hz]; [exact Hyx | now apply Hy].
Qed.

(** X1. The thresholds a detector works through are strictly ascending,
    so that no value occurs twice; each is the threshold of the settings or
    one of the extra thresholds, and the threshold of the settings and
    every extra threshold are among them (up to equality of numbers). *)
Theorem thresholds_sorted_and_complete (s : Settings)
        (extra_thresholds : option (list Q)) :
  StronglySorted Qlt (_get_thresholds s extra_thresholds) /\
  (forall q,
      In q (_get_thresholds s extra_thresholds) ->
      q = threshold s \/
      exists extra, extra_thresholds = Some extra /\ In q extra) /\
  (exists q, In q (_get_thresholds s extra_thresholds) /\
             (q == threshold s)%Q) /\
  (forall extra x,
      extra_thresholds = Some extra -> In x extra ->
      exists q, In q (_get_thresholds s extra_thresholds) /\ (q == x)%Q).
Proof.
  unfold _get_thresholds. destruct extra_thresholds as [extra |].
  - assert (Hsorted : StronglySorted
                        Qlt (fold_right insert_threshold [threshold s] extra)).
    { induction extra as [| x extra IH]; simpl.
      - constructor; constructor.
      - now apply insert_threshold_sorted. }
    assert (Hfrom : forall q,
               In q (fold_right insert_threshold [threshold s] extra) ->
               q = threshold s \/ In q extra).
    { clear Hsorted. induction extra as [| x extra IH]; simpl; intros q Hq.
      - destruct Hq as [<- | []]. now left.
      - apply insert_threshold_In in Hq as [-> | Hq]; [right; now left |].
        destruct (IH q Hq) as [-> | H];
          [now left | right; now right]. }
    assert (Hbase : exists q,
               In q (fold_right insert_threshold [threshold s] extra) /\
               (q == threshold s)%Q).
    { clear Hsorted Hfrom. induction extra as [| x extra IH]; simpl.
      - exists (threshold s). split; [now left | reflexivity].
      - destruct IH as (q & Hq & Heq). exists q.
        split; [now apply insert_threshold_keeps | exact Heq]. }
    assert (Hextra : forall x, In x extra ->
               exists q,
                 In q (fold_right insert_threshold [threshold s] extra) /\
                 (q == x)%Q).
    { clear Hsorted Hfrom Hbase.
      induction extra as [| y extra IH]; simpl; intros x Hx; [contradiction |].
      destruct Hx as [<- | Hx]; [apply insert_threshold_has |].
      destruct (IH x Hx) as (q & Hq & Heq). exists q.
      split; [now apply insert_threshold_keeps | exact Heq]. }
    repeat split; try assumption.
    + intros q Hq. destruct (Hfrom q Hq) as [-> | H]; [now left |].
      right. exists extra. now split.
    + intros extra' x [= <-] Hx. now apply Hextra.
  - repeat split.
    + constructor; constructor.
    + intros q [<- | []]. now left.
    + exists (threshold s). split; [now left | reflexivity].
    + intros extra x [=].
Qed.

(** ** The records of the windowing step *)

Section Records.
Context {sample : Type}.
Implicit Types (samples : list sample) (w : list (list sample)).

Lemma records_returns_inv samples (r h : Z) t w :
  _get_analysis_records samples r h = (t, Returns w) ->
  0 < h <= r /\
  w = map (record_at samples r h)
          (seq 0 (Z.to_nat (num_windows (Z.of_nat (List.length samples)) r h))).
Proof.
  intros H.
  destruct (Z_le_gt_dec r 0) as [Hr | Hr];
    [| destruct (Z_le_gt_dec h 0) as [Hh | Hh];
       [| destruct (Z_le_gt_dec h r) as [Hhr | Hhr]]].
  1, 2, 4:
    exfalso; unfold _get_analysis_records in H;
    destruct (num_records_malformed (Z.of_nat (List.length samples)) r h)
      as (msg & Hm); [lia | rewrite Hm in H; discriminate].
  split; [lia |].
  unfold _get_analysis_records in H.
  rewrite (num_records_wellformed _ r h) in H by lia.
  rewrite bind_ret_l in H. inversion H. reflexivity.
Qed.

Lemma num_windows_fit (n r h : Z) :
  0 < h <= r -> r <= n ->
  1 <= num_windows n r h /\
  (num_windows n r h - 1) * h + r <= n < num_windows n r h * h + r.
Proof.
  intros Hw Hn. unfold num_windows.
  destruct (n <? r) eqn:E; [apply Z.ltb_lt in E; lia |].
  pose proof (Z.mul_div_le (n - (r - h)) h ltac:(lia)) as H1.
  pose proof (Z.mul_succ_div_gt (n - (r - h)) h ltac:(lia)) as H2.
  assert (H3 : 1 <= (n - (r - h)) / h)
    by (apply Z.div_le_lower_bound; lia).
  nia.
Qed.

Lemma nth_records samples (r h : Z) (N k : nat) :
  (k < N)%nat ->
  nth k (map (record_at samples r h) (seq 0 N)) [] = record_at samples r h k.
Proof.
  intros Hk.
  rewrite (nth_indep _ [] (record_at samples r h 0))
    by (rewrite length_map, length_seq; exact Hk).
  rewrite map_nth, seq_nth by exact Hk. reflexivity.
Qed.

Lemma records_fit samples (r h : Z) (k : nat) :
  0 < h <= r ->
  (k < Z.to_nat (num_windows (Z.of_nat (List.length samples)) r h))%nat ->
  Z.of_nat k * h + r <= Z.of_nat (List.length samples).
Proof.
  intros Hw Hk.
  destruct (Z_lt_ge_dec (Z.of_nat (List.length samples)) r) as [Hlt | Hge].
  - unfold num_windows in Hk. apply Z.ltb_lt in Hlt. rewrite Hlt in Hk.
    simpl in Hk. lia.
  - assert (Hge' : r <= Z.of_nat (List.length samples)) by lia.
    pose proof (num_windows_fit _ r h Hw Hge') as (H1 & H2 & _).
    set (N := num_windows (Z.of_nat (List.length samples)) r h) in *.
    assert (Hk' : Z.of_nat k <= N - 1) by lia.
    assert (Hm : Z.of_nat k * h <= (N - 1) * h)
      by (apply Z.mul_le_mono_nonneg_r; lia).
    lia.
Qed.

(** X2. When the windowing step returns, record [k] is the [record_size]
    samples that start at offset [k * hop_size], it has exactly
    [record_size] samples, and it ends within the sample array: the strided
    view reads nothing beyond the samples it was given. *)
Theorem records_in_bounds samples (record_size hop_size : Z) t w (k : nat) :
  _get_analysis_records samples record_size hop_size = (t, Returns w) ->
  (k < List.length w)%nat ->
  nth k w [] =
  firstn (Z.to_nat record_size)
         (skipn (Z.to_nat (Z.of_nat k * hop_size)) samples) /\
  Z.of_nat (List.length (nth k w [])) = record_size /\
  Z.of_nat k * hop_size + record_size <= Z.of_nat (List.length samples).
Proof.
  intros H Hk. apply records_returns_inv in H as (Hw & ->).
  rewrite length_map, length_seq in Hk. rewrite (nth_records _ _ _ _ _ Hk).
  pose proof (records_fit _ _ _ _ Hw Hk) as Hfit.
  unfold record_at. repeat split; [| exact Hfit].
  rewrite length_firstn, length_skipn. nia.
Qed.

(** X3. The windowing step takes as many records as fit: with fewer
    samples than one record it returns none, and otherwise at least one,
    the last of which ends within the samples while one more record would
    run past their end. *)
Theorem records_are_maximal samples (record_size hop_size : Z) t w :
  _get_analysis_records samples record_size hop_size = (t, Returns w) ->
  (Z.of_nat (List.length samples) < record_size -> w = []) /\
  (record_size <= Z.of_nat (List.length samples) ->
   1 <= Z.of_nat (List.length w) /\
   (Z.of_nat (List.length w) - 1) * hop_size + record_size
   <= Z.of_nat (List.length samples)
   < Z.of_nat (List.length w) * hop_size + record_size).
Proof.
  intros H. apply records_returns_inv in H as (Hw & ->).
  rewrite length_map, length_seq. split.
  - intros Hlt. unfold num_windows. apply Z.ltb_lt in Hlt. now rewrite Hlt.
  - intros Hge. pose proof (num_windows_fit _ _ _ Hw Hge) as (H1 & H2).
    rewrite Z2Nat.id by lia. split; assumption.
Qed.

(** X4. Consecutive records overlap by [record_size - hop_size] samples:
    what is left of a record after its first [hop_size] samples is the
    beginning of the next record. *)
Theorem records_overlap samples (record_size hop_size : Z) t w (k : nat) :
  _get_analysis_records samples record_size hop_size = (t, Returns w) ->
  (S k < List.length w)%nat ->
  skipn (Z.to_nat hop_size) (nth k w []) =
  firstn (Z.to_nat (record_size - hop_size)) (nth (S k) w []).
Proof.
  intros H Hk. apply records_returns_inv in H as (Hw & ->).
  rewrite length_map, length_seq in Hk.
  rewrite !nth_records by lia. unfold record_at.
  rewrite skipn_firstn_comm, skipn_skipn, firstn_firstn.
  f_equal; [lia |]. f_equal. nia.
Qed.

Lemma firstn_plus (a b : nat) (l : list sample) :
  firstn (a + b) l = firstn a l ++ firstn b (skipn a l).
Proof.
  revert l. induction a as [| a IH]; intros l; [reflexivity |].
  destruct l as [| x l]; simpl.
  - now rewrite firstn_nil.
  - now rewrite IH.
Qed.

Lemma concat_adjacent_records samples (r : Z) (N : nat) :
  0 <= r ->
  List.concat (map (record_at samples r r) (seq 0 N)) =
  firstn (N * Z.to_nat r) samples.
Proof.
  intros Hr. induction N as [| N IH]; [reflexivity |].
  rewrite seq_S, map_app, concat_app, IH. simpl.
  rewrite app_nil_r, Nat.add_comm, firstn_plus. unfold record_at.
  do 3 f_equal. rewrite Z2Nat.inj_mul, Nat2Z.id by lia. reflexivity.
Qed.

(** X5. With a hop size equal to the record size the records do not
    overlap: joined end to end they are the samples themselves, in order,
    up to a remainder shorter than one record. *)
Theorem records_without_overlap_tile samples (record_size : Z) t w :
  _get_analysis_records samples record_size record_size = (t, Returns w) ->
  List.concat w = firstn (List.length w * Z.to_nat record_size) samples /\
  Z.of_nat (List.length samples)
  - Z.of_nat (List.length w) * record_size < record_size.
Proof.
  intros H. apply records_returns_inv in H as (Hw & ->).
  rewrite length_map, length_seq. split.
  - apply concat_adjacent_records. lia.
  - destruct (Z_lt_ge_dec (Z.of_nat (List.length samples)) record_size)
      as [Hlt | Hge].
    + unfold num_windows. apply Z.ltb_lt in Hlt. rewrite Hlt. simpl. lia.
    + assert (Hge' : record_size <= Z.of_nat (List.length samples)) by lia.
      pose proof (num_windows_fit _ _ _ Hw Hge') as (H1 & _ & H2).
      rewrite Z2Nat.id by lia. lia.
Qed.

(** X6. Once there are enough samples for a record, every further
    [hop_size] samples make exactly one more record. *)
Theorem one_more_hop_one_more_record (n record_size hop_size k : Z) :
  _get_num_analysis_records n record_size hop_size = ret k ->
  record_size <= n ->
  _get_num_analysis_records (n + hop_size) record_size hop_size
  = ret (k + 1).
Proof.
  intros H Hn.
  destruct (Z_le_gt_dec record_size 0) as [Hr | Hr];
    [| destruct (Z_le_gt_dec hop_size 0) as [Hh | Hh];
       [| destruct (Z_le_gt_dec hop_size record_size) as [Hhr | Hhr]]].
  1, 2, 4:
    exfalso;
    destruct (num_records_malformed n record_size hop_size) as (msg & Hm);
    [lia | rewrite Hm in H; discriminate].
  rewrite num_records_wellformed in H |- * by lia.
  inversion H as [Hk]. clear H.
  replace (n <? record_size) with false by (symmetry; apply Z.ltb_ge; lia).
  replace (n + hop_size <? record_size) with false
    by (symmetry; apply Z.ltb_ge; lia).
  replace (n + hop_size - (record_size - hop_size))
    with (n - (record_size - hop_size) + 1 * hop_size) by ring.
  rewrite Z.div_add by lia. reflexivity.
Qed.

End Records.

(** ** What a session does to the listener *)

Section ListenerFacts.
Context {sample : Type} `{C : Collaborators sample}.
Implicit Types (d : Detector sample) (b c s : list sample).



Lemma chunk_event_config d d' e :
  config d' = config d -> chunk_event d' e -> chunk_event d e.
Proof.
  intros Hc. destruct e as [s l th | | msg]; simpl; auto.
  pose proof (f_equal _clip_length Hc) as H1.
  pose proof (f_equal _thresholds Hc) as H2.
  simpl in H1, H2. now rewrite H1, H2.
Qed.


Lemma notify_clip_one d start_offset input_length th i :
  exists e,
    notify_clip d start_offset input_length th i = ([e], Returns tt) /\
    (e = ProcessClip
           (seconds_to_frames
              (get_duration i (_classifier_sample_rate d))
              (_input_sample_rate d) + start_offset)
           (_clip_length d) th
     \/ exists msg, e = LogWarning msg).
Proof.
  unfold notify_clip.
  destruct (_ <? 0); [eexists; split; [reflexivity | right; eauto] |].
  destruct (_ >? _); eexists; split; try reflexivity; [right; eauto | now left].
Qed.

Lemma notify_length d peaks input_length th :
  List.length (fst (_notify_listener_of_clips d peaks input_length th))
  = List.length peaks.
Proof.
  unfold _notify_listener_of_clips.
  induction peaks as [| p peaks IH]; [reflexivity |]. simpl.
  destruct (notify_clip_one
              d (_input_chunk_start_index d + _clip_start_offset d)
              input_length th (p * _hop_size d)) as (e & He & _).
  rewrite He, bind_returns. simpl. now rewrite IH.
Qed.

Lemma chunk_events_are_chunk_events d w n e :
  In e (fst (chunk_events d w n)) -> chunk_event d e.
Proof.
  intros H. apply for_each_events in H as (th & Hth & H).
  apply for_each_events in H as (i & _ & H).
  destruct (notify_clip_one
              d (_input_chunk_start_index d + _clip_start_offset d) n th i)
    as (e' & He' & Hkind).
  rewrite He' in H. destruct H as [<- | []].
  destruct Hkind as [-> | (msg & ->)]; simpl; auto.
Qed.

Lemma process_chunk_events d c e :
  In e (fst (_process_input_chunk d c)) -> chunk_event d e.
Proof.
  rewrite process_chunk_unfold. intros H.
  apply bind_events in H as [H | (ws & _ & H)].
  - rewrite chunk_inputs_silent in H. contradiction.
  - simpl in H. now apply chunk_events_are_chunk_events in H.
Qed.

Lemma while_chunks_events fuel : forall d e,
  In e (fst (while_chunks fuel d)) -> chunk_event d e.
Proof.
  induction fuel as [| fuel IH]; intros d e H;
    (destruct (_input_buffer d) as [b |] eqn:Hb;
     [| rewrite (while_chunks_none _ _ Hb) in H; contradiction]);
    (destruct (Z_le_gt_dec (_input_chunk_size d) (SampleBuffer.len b))
      as [Hle | Hgt];
     [| rewrite (while_chunks_stop _ _ _ Hb) in H by lia; contradiction]).
  - rewrite (while_chunks_out_of_fuel _ _ Hb Hle) in H. contradiction.
  - rewrite (while_chunks_step _ _ _ Hb Hle) in H.
    apply bind_events in H as [H | (d1 & Hd1 & H)].
    + apply process_chunk_events in H.
      eapply chunk_event_config; [| exact H]. reflexivity.
    + apply snd_returns in Hd1.
      apply process_chunk_inv in Hd1 as (w & ->).
      apply IH in H. eapply chunk_event_config; [| exact H]. reflexivity.
Qed.

Lemma process_chunks_events d flag e :
  In e (fst (_process_input_chunks d flag)) -> chunk_event d e.
Proof.
  unfold _process_input_chunks. intros H.
  apply bind_events in H as [H | (d1 & Hd1 & H)];
    [now apply while_chunks_events in H |].
  apply snd_returns in Hd1.
  apply while_chunks_inv in Hd1 as (Hc & _ & b' & _ & Hb' & _).
  rewrite Hb' in H.
  destruct (flag && negb (SampleBuffer.len b' =? 0)); [| contradiction].
  simpl in H. apply process_chunk_events in H.
  eapply chunk_event_config; [| exact H]. rewrite <- Hc. reflexivity.
Qed.

Lemma detect_events d s e : In e (fst (detect d s)) -> chunk_event d e.
Proof.
  unfold detect. intros H. apply process_chunks_events in H.
  eapply chunk_event_config; [| exact H]. reflexivity.
Qed.

Lemma detect_all_events : forall calls d e,
  In e (fst (detect_all d calls)) -> chunk_event d e.
Proof.
  induction calls as [| s calls IH]; intros d e H; [contradiction |].
  simpl in H. apply bind_events in H as [H | (d1 & Hd1 & H)];
    [now apply detect_events in H |].
  apply snd_returns in Hd1. apply detect_inv in Hd1 as (Hc & _).
  apply IH in H. now apply (chunk_event_config _ _ _ Hc).
Qed.

Lemma session_chunks_events d calls e :
  In e (fst (session_chunks d calls)) -> chunk_event d e.
Proof.
  unfold session_chunks. intros H.
  apply bind_events in H as [H | (d1 & Hd1 & H)];
    [now apply detect_all_events in H |].
  apply snd_returns in Hd1. apply config_detect_all in Hd1.
  apply process_chunks_events in H.
  now apply (chunk_event_config _ _ _ Hd1).
Qed.

Lemma session_split d calls :
  session d calls =
  bind (session_chunks d calls)
       (fun d2 => ([CompleteProcessing], Returns d2)).
Proof.
  unfold session, session_chunks, complete_detection.
  rewrite bind_assoc. reflexivity.
Qed.


(** X8. Every clip a session hands to the listener has the configured
    clip length and carries one of the detector's thresholds. *)
Theorem clips_have_configured_length_and_threshold
        d (calls : list (list sample)) start len th :
  In (ProcessClip start len th) (fst (session d calls)) ->
  len = _clip_length d /\ In th (_thresholds d).
Proof.
  rewrite session_split. intros H.
  apply bind_events in H as [H | (d2 & _ & [H | []])]; [| discriminate].
  now apply session_chunks_events in H.
Qed.

Lemma for_each_length {A} (body : A -> M unit) (l : list A) :
  (forall x, snd (body x) = Returns tt) ->
  List.length (fst (for_each body l)) =
  list_sum (map (fun x => List.length (fst (body x))) l).
Proof.
  intros Hret. induction l as [| x l IH]; [reflexivity |]. simpl.
  unfold bind. rewrite (Hret x). simpl. now rewrite length_app, IH.
Qed.

(** X9. A chunk that is processed answers every peak of every threshold
    with exactly one call, a clip or a warning: the calls of the chunk are
    as many as the peaks found in the scores of its waveforms, which are
    the waveforms left in [_waveforms]. *)
Theorem one_answer_per_peak d c t d' :
  _process_input_chunk d c = (t, Returns d') ->
  exists w scores,
    _waveforms d' = Some w /\
    score_dataset_examples w = inr scores /\
    List.length t = peak_total d scores.
Proof.
  rewrite process_chunk_unfold. intros H.
  apply bind_returns_inv in H as (t1 & [w scores] & t2 & Hin & Hev & ->).
  inversion Hev; subst t2 d'. clear Hev.
  pose proof (chunk_inputs_silent d c) as Ht1. rewrite Hin in Ht1.
  simpl in Ht1. subst t1.
  apply chunk_inputs_inv in Hin as (c' & _ & _ & Hscores).
  exists w, scores. split; [reflexivity | split; [exact Hscores |]].
  simpl app. cbn [fst snd].
  unfold chunk_events, peak_total.
  rewrite for_each_length by (intros; apply notify_returns).
  f_equal. apply map_ext. intros th. apply notify_length.
Qed.

End ListenerFacts.

(** ** Order of the thresholds, and errors *)

Section OrderAndErrors.
Context {sample : Type} `{C : Collaborators sample}.
Implicit Types (d : Detector sample) (b c s : list sample).

Lemma clip_thresholds_app (t1 t2 : list event) :
  clip_thresholds (t1 ++ t2) = clip_thresholds t1 ++ clip_thresholds t2.
Proof.
  unfold clip_thresholds.
  induction t1 as [| [s l th | | msg] t1 IH]; simpl;
    [reflexivity | now rewrite IH | assumption | assumption].
Qed.

Lemma clip_thresholds_In (t : list event) (q : Q) :
  In q (clip_thresholds t) ->
  exists (start len : Z), In (ProcessClip start len q) t.
Proof.
  unfold clip_thresholds.
  induction t as [| [s l th | | msg] t IH]; simpl; intros H;
    try contradiction;
    try (destruct (IH H) as (s' & l' & H'); exists s', l'; now right).
  destruct H as [<- | H].
  - exists s, l. now left.
  - destruct (IH H) as (s' & l' & H'). exists s', l'. now right.
Qed.

Lemma sorted_app (l1 l2 : list Q) :
  StronglySorted Qle l1 -> StronglySorted Qle l2 ->
  (forall x y, In x l1 -> In y l2 -> (x <= y)%Q) ->
  StronglySorted Qle (l1 ++ l2).
Proof.
  induction l1 as [| a l1 IH]; simpl; intros H1 H2 H; [exact H2 |].
  inversion H1 as [| ? ? Hs Ha]; subst. constructor.
  - apply IH; auto.
  - rewrite Forall_forall in Ha |- *. intros y Hy.
    apply in_app_or in Hy as [Hy | Hy]; [now apply Ha | apply H; auto].
Qed.

Lemma sorted_constant (l : list Q) (q : Q) :
  (forall x, In x l -> x = q) -> StronglySorted Qle l.
Proof.
  induction l as [| a l IH]; intros H; constructor.
  - apply IH. intros x Hx. apply H. now right.
  - rewrite Forall_forall. intros x Hx.
    rewrite (H a (or_introl eq_refl)), (H x (or_intror Hx)). apply Qle_refl.
Qed.

Lemma notify_thresholds d peaks n th q :
  In q (clip_thresholds (fst (_notify_listener_of_clips d peaks n th))) ->
  q = th.
Proof.
  intros H. apply clip_thresholds_In in H as (s & l & H).
  apply for_each_events in H as (i & _ & H).
  destruct (notify_clip_one
              d (_input_chunk_start_index d + _clip_start_offset d) n th i)
    as (e & He & Hkind).
  rewrite He in H. destruct H as [H | []].
  destruct Hkind as [Hk | (msg & Hk)]; congruence.
Qed.

Lemma thresholds_in_order d (peaks : Q -> list Z) n : forall L,
  StronglySorted Qlt L ->
  StronglySorted
    Qle
    (clip_thresholds
       (fst (for_each
               (fun th => _notify_listener_of_clips d (peaks th) n th) L)))
  /\
  forall q,
    In q (clip_thresholds
            (fst (for_each
                    (fun th => _notify_listener_of_clips d (peaks th) n th)
                    L))) ->
    In q L.
Proof.
  induction L as [| th L IH]; intros HL.
  - split; [constructor | contradiction].
  - inversion HL as [| ? ? HL' Hth]; subst.
    destruct (IH HL') as (Hs & Hin).
    cbn [for_each]. unfold bind. rewrite notify_returns.
    cbn [fst snd]. rewrite clip_thresholds_app. split.
    + apply sorted_app.
      * apply (sorted_constant _ th). intros x. apply notify_thresholds.
      * exact Hs.
      * intros x y Hx Hy. apply notify_thresholds in Hx as ->.
        apply Hin in Hy. rewrite Forall_forall in Hth.
        apply Qlt_le_weak. now apply Hth.
    + intros q Hq. apply in_app_or in Hq as [Hq | Hq].
      * left. symmetry. now apply notify_thresholds in Hq.
      * right. now apply Hin.
Qed.

(** X10. Within one chunk the clips come in the order of the thresholds:
    when the detector's thresholds are strictly ascending, as [__init__]
    leaves them, the thresholds of the clips of a chunk never decrease. *)
Theorem chunk_clips_in_threshold_order d c :
  StronglySorted Qlt (_thresholds d) ->
  StronglySorted Qle (clip_thresholds (fst (_process_input_chunk d c))).
Proof.
  intros HL. rewrite process_chunk_unfold.
  pose proof (chunk_inputs_silent d c) as Hsil.
  destruct (chunk_inputs d c) as [t1 [ws | e |]];
    simpl in Hsil; subst t1; unfold bind; cbn [fst snd];
    try (constructor; fail).
  simpl app.
  apply (proj1 (thresholds_in_order
                  d (fun th => _find_peaks d (snd ws) th)
                  (Z.of_nat (List.length c)) _ HL)).
Qed.


End OrderAndErrors.

(** ** Accounting for the samples *)

Section Accounting.
Context {sample : Type} `{C : Collaborators sample}.
Implicit Types (d : Detector sample) (b c s : list sample).

(** X12. A [detect] call that returns has processed every complete chunk
    of what was buffered and written, and nothing more: the chunk start
    index has advanced by the chunk size times the whole number of chunks
    in that many samples, and the buffer holds the samples after them, as
    many as the remainder of the division. No sample is lost, repeated or
    reordered. *)
Theorem detect_accounting d s t d' :
  detect d s = (t, Returns d') ->
  0 < _input_chunk_size d /\
  _input_chunk_start_index d' =
  _input_chunk_start_index d
  + _input_chunk_size d
    * (SampleBuffer.len (buffer_of d ++ s) / _input_chunk_size d) /\
  _input_buffer d' =
  Some (skipn (Z.to_nat
                 (_input_chunk_size d
                  * (SampleBuffer.len (buffer_of d ++ s)
                     / _input_chunk_size d)))
              (buffer_of d ++ s)) /\
  SampleBuffer.len (buffer_of d') =
  SampleBuffer.len (buffer_of d ++ s) mod _input_chunk_size d.
Proof. apply detect_consumed. Qed.

(** X13. Until a complete chunk has been gathered [detect] only buffers:
    with fewer samples buffered and written than one chunk it returns at
    once, the samples appended to the buffer, no chunk processed, nothing
    reported and the chunk start index unchanged. *)
Theorem detect_below_a_chunk_only_buffers d s :
  SampleBuffer.len (buffer_of d ++ s) < _input_chunk_size d ->
  detect d s = ([], Returns (set_input_buffer d (Some (buffer_of d ++ s)))).
Proof.
  intros H. rewrite detect_unfold.
  now apply (while_chunks_stop _ _ (buffer_of d ++ s)).
Qed.

Lemma set_input_buffer_same d b :
  _input_buffer d = Some b -> set_input_buffer d (Some b) = d.
Proof. destruct d; simpl; intros ->; reflexivity. Qed.

(** X14. After a [detect] call that returned, [detect] with an empty
    array does nothing: it returns the detector as it is and makes no call
    on the listener. *)
Theorem detect_nothing_does_nothing d s t d' :
  detect d s = (t, Returns d') ->
  detect d' [] = ([], Returns d').
Proof.
  intros H. apply detect_inv in H as (Hc & b' & Hb' & Hlt & _).
  rewrite detect_unfold.
  assert (Hbo : buffer_of d' = b') by (unfold buffer_of; now rewrite Hb').
  rewrite Hbo, app_nil_r.
  rewrite (while_chunks_stop _ (set_input_buffer d' (Some b')) b' eq_refl)
    by (simpl; rewrite (config_chunk_size _ _ Hc); exact Hlt).
  unfold ret. now rewrite (set_input_buffer_same _ _ Hb').
Qed.

(** X15. A session that returns has consumed every sample: the buffer is
    empty and the chunk start index has advanced by the number of samples
    that were buffered at the start plus the number passed to [detect]; the
    configuration is unchanged. *)
Theorem session_consumes_everything d (calls : list (list sample)) t d' :
  session d calls = (t, Returns d') ->
  _input_buffer d' = Some [] /\
  _input_chunk_start_index d' =
  _input_chunk_start_index d + SampleBuffer.len (buffer_of d)
  + Z.of_nat (List.length (List.concat calls)) /\
  config d' = config d.
Proof.
  unfold session. intros H.
  apply bind_returns_inv in H as (t1 & d1 & t2 & H1 & H2 & _).
  pose proof (received_detect_all _ _ _ _ H1) as Hrec.
  apply config_detect_all in H1.
  apply complete_detection_inv in H2 as (Hc & Hb & Hidx).
  unfold received in *. repeat split; [exact Hb | lia | congruence].
Qed.

(** X16. [complete_detection] does not guard against being called again:
    once it has returned, a second call returns the same detector and
    calls [complete_processing] once more, with no clip. *)
Theorem complete_detection_again d t d1 :
  complete_detection d = (t, Returns d1) ->
  complete_detection d1 = ([CompleteProcessing], Returns d1).
Proof.
  intros H. pose proof H as Hinv.
  apply complete_detection_inv in Hinv as (Hc & Hb & _).
  unfold complete_detection, _process_input_chunks in H.
  apply bind_returns_inv in H as (t1 & d2 & t2 & H1 & _).
  apply bind_returns_inv in H1 as (ta & da & tb & Ha & _).
  apply while_chunks_inv in Ha as (Hca & _ & b' & _ & _ & Hlt & _).
  apply complete_detection_empty; [| exact Hb].
  rewrite (config_chunk_size _ _ Hc). unfold SampleBuffer.len in Hlt. lia.
Qed.

End Accounting.

(** ** The further properties on worked inputs *)

Example two_threshold_detector_init :
  __init__ (C := collaborators) settings 1 (Some [9 # 10; 1 # 2; 9 # 10])
  = ([], Returns two_threshold_detector).
Proof. reflexivity. Qed.

Example two_threshold_chunk_outcome :
  _process_input_chunk
    (C := collaborators) two_threshold_detector two_threshold_chunk
  = (two_threshold_chunk_events, Returns two_threshold_chunk_state) /\
  two_threshold_chunk_events
  = [ProcessClip 3 4 (1 # 2); ProcessClip 3 4 (9 # 10)].
Proof. split; vm_compute; reflexivity. Qed.

Lemma thresholds_sorted_and_complete_witness :
  exists q,
    In q (_get_thresholds settings (Some [9 # 10; 1 # 2; 9 # 10])) /\
    (q == 9 # 10)%Q.
Proof.
  apply (proj2 (proj2 (proj2 (thresholds_sorted_and_complete
                                 settings (Some [9 # 10; 1 # 2; 9 # 10]))))
               [9 # 10; 1 # 2; 9 # 10] (9 # 10) eq_refl).
  left. reflexivity.
Defined.

Lemma records_in_bounds_witness :
  nth 1 [[1; 2; 3; 4]; [3; 4; 5; 6]] [] =
  firstn (Z.to_nat 4) (skipn (Z.to_nat (Z.of_nat 1 * 2)) [1; 2; 3; 4; 5; 6; 7])
  /\
  Z.of_nat (List.length (nth 1 [[1; 2; 3; 4]; [3; 4; 5; 6]] [])) = 4 /\
  Z.of_nat 1 * 2 + 4 <= Z.of_nat (List.length [1; 2; 3; 4; 5; 6; 7]).
Proof.
  apply (records_in_bounds [1; 2; 3; 4; 5; 6; 7] 4 2 []
                           [[1; 2; 3; 4]; [3; 4; 5; 6]] 1 eq_refl).
  simpl. lia.
Defined.

Lemma records_are_maximal_witness :
  1 <= Z.of_nat (List.length [[1; 2; 3; 4]; [3; 4; 5; 6]]) /\
  (Z.of_nat (List.length [[1; 2; 3; 4]; [3; 4; 5; 6]]) - 1) * 2 + 4
  <= Z.of_nat (List.length [1; 2; 3; 4; 5; 6; 7])
  < Z.of_nat (List.length [[1; 2; 3; 4]; [3; 4; 5; 6]]) * 2 + 4.
Proof.
  apply (proj2 (records_are_maximal [1; 2; 3; 4; 5; 6; 7] 4 2 []
                                    [[1; 2; 3; 4]; [3; 4; 5; 6]] eq_refl)).
  simpl. lia.
Defined.

Lemma records_overlap_witness :
  skipn (Z.to_nat 2) (nth 0 [[1; 2; 3; 4]; [3; 4; 5; 6]] []) =
  firstn (Z.to_nat (4 - 2)) (nth 1 [[1; 2; 3; 4]; [3; 4; 5; 6]] []).
Proof.
  apply (records_overlap [1; 2; 3; 4; 5; 6; 7] 4 2 []
                         [[1; 2; 3; 4]; [3; 4; 5; 6]] 0 eq_refl).
  simpl. lia.
Defined.

Lemma records_without_overlap_tile_witness :
  List.concat [[1; 2; 3]; [4; 5; 6]] =
  firstn (List.length [[1; 2; 3]; [4; 5; 6]] * Z.to_nat 3)
         [1; 2; 3; 4; 5; 6; 7] /\
  Z.of_nat (List.length [1; 2; 3; 4; 5; 6; 7])
  - Z.of_nat (List.length [[1; 2; 3]; [4; 5; 6]]) * 3 < 3.
Proof.
  exact (records_without_overlap_tile
           [1; 2; 3; 4; 5; 6; 7] 3 [] [[1; 2; 3]; [4; 5; 6]] eq_refl).
Defined.

Lemma one_more_hop_one_more_record_witness :
  _get_num_analysis_records (25 + 5) 10 5 = ret (4 + 1).
Proof.
  apply (one_more_hop_one_more_record 25 10 5 4 eq_refl). lia.
Defined.

Lemma clips_have_configured_length_and_threshold_witness :
  4 = _clip_length new_detector /\ In (1 # 2) (_thresholds new_detector).
Proof.
  apply (clips_have_configured_length_and_threshold
           (C := collaborators) new_detector recording_in_three 17 4 (1 # 2)).
  vm_compute. right. left. reflexivity.
Defined.

Lemma one_answer_per_peak_witness :
  exists w scores,
    _waveforms two_threshold_chunk_state = Some w /\
    score_dataset_examples (Collaborators := collaborators) w = inr scores /\
    List.length two_threshold_chunk_events
    = peak_total (C := collaborators) two_threshold_detector scores.
Proof.
  exact (one_answer_per_peak
           (C := collaborators) two_threshold_detector two_threshold_chunk
           _ _ (proj1 two_threshold_chunk_outcome)).
Defined.

Lemma chunk_clips_in_threshold_order_witness :
  StronglySorted
    Qle
    (clip_thresholds
       (fst (_process_input_chunk
               (C := collaborators) two_threshold_detector
               two_threshold_chunk))).
Proof.
  apply (chunk_clips_in_threshold_order (C := collaborators)).
  repeat constructor.
Defined.


Lemma detect_accounting_witness :
  0 < _input_chunk_size new_detector /\
  _input_chunk_start_index detect_recording_state =
  _input_chunk_start_index new_detector
  + _input_chunk_size new_detector
    * (SampleBuffer.len (buffer_of new_detector ++ recording)
       / _input_chunk_size new_detector) /\
  _input_buffer detect_recording_state =
  Some (skipn (Z.to_nat
                 (_input_chunk_size new_detector
                  * (SampleBuffer.len (buffer_of new_detector ++ recording)
                     / _input_chunk_size new_detector)))
              (buffer_of new_detector ++ recording)) /\
  SampleBuffer.len (buffer_of detect_recording_state) =
  SampleBuffer.len (buffer_of new_detector ++ recording)
  mod _input_chunk_size new_detector.
Proof.
  exact (detect_accounting
           (C := collaborators) new_detector recording _ _
           detect_recording_outcome).
Defined.

Lemma detect_below_a_chunk_only_buffers_witness :
  detect (C := collaborators) new_detector [0; 5; 5; 5; 0] =
  ([], Returns (set_input_buffer
                  new_detector (Some (buffer_of new_detector ++ [0; 5; 5; 5; 0])))).
Proof.
  apply (detect_below_a_chunk_only_buffers (C := collaborators)). reflexivity.
Defined.

Lemma detect_nothing_does_nothing_witness :
  detect (C := collaborators) detect_recording_state []
  = ([], Returns detect_recording_state).
Proof.
  exact (detect_nothing_does_nothing
           (C := collaborators) new_detector recording _ _
           detect_recording_outcome).
Defined.

Lemma session_consumes_everything_witness :
  _input_buffer session_in_three_state = Some [] /\
  _input_chunk_start_index session_in_three_state =
  _input_chunk_start_index new_detector
  + SampleBuffer.len (buffer_of new_detector)
  + Z.of_nat (List.length (List.concat recording_in_three)) /\
  config session_in_three_state = config new_detector.
Proof.
  exact (session_consumes_everything
           (C := collaborators) new_detector recording_in_three _ _
           session_in_three_outcome).
Defined.

Lemma complete_detection_again_witness :
  complete_detection (C := collaborators) three_samples_done
  = ([CompleteProcessing], Returns three_samples_done).
Proof.
  exact (complete_detection_again
           (C := collaborators) three_samples_left _ _ three_samples_outcome).
Defined.
